(** * geomeTRIC [engine.py]: result cache, work-queue protocol and the
      conical-intersection objective

    A shallow embedding of the [Engine] base class of [geometric/engine.py]
    (the [stored_calcs] memo table, [calc], [calc_wq], [read_wq]), of the
    subclasses [Blank], [QChem] (its work-queue submission), [QCEngineAPI]
    and [ConicalIntersection], and the properties of these that the design
    document states; then of more of the file: the local run of [QChem],
    [set_tcenv], [TeraChem] and the finite differences of [Zmachine], with
    further properties read off the code.

    Conventions of the embedding.
    - Python floats and 1-d numpy arrays are exact rationals [Qc] and
      [list Qc]: the arithmetic of [ConicalIntersection.calc_new] is the
      arithmetic of the rational field, with Python's [ZeroDivisionError]
      and numpy's shape errors written out.  Rounding is not modelled.
    - A method is a state transformer that may raise: [M Σ A] maps a state to
      an outcome ([inl] exception, [inr] value) and the state it leaves.  The
      state of a call is the receiver object paired with the world outside
      the interpreter (file system, work queue, external programs).
    - A class is its method table ([EngineClass]); dynamic dispatch is
      application of the table's field.  [hasattr(self, 'read_result')] is
      [read_result] being [Some].
    - [logger.info] calls change neither control flow nor any state that is
      read back, and are left out. *)

From Stdlib Require Import QArith Qcanon ZArith Lqa.
From stdpp Require Import base gmap strings list fin_maps pretty.

(** ** Exceptions *)

(** Modelled from the spec: [geometric/errors.py] is not among the sources.
    The class names are the ones [engine.py] imports from it; that the
    adapter-specific classes and [ConicalIntersectionEngineError] derive from
    [EngineError] is the spec's "typed, adapter-specific EngineErrors ...
    same EngineError family". *)
Inductive engine_error : Set :=
| EngineError
| Psi4EngineError
| QChemEngineError
| TeraChemEngineError
| ConicalIntersectionEngineError
| OpenMMEngineError
| GromacsEngineError
| MolproEngineError
| QCEngineAPIEngineError.

(** Exceptions that the modelled code raises or lets through.  The builtins
    are Python's own classes, none of which is an [EngineError]. *)
Inductive exn : Type :=
| Engine_exn (cls : engine_error) (msg : string)
| NotImplementedError (msg : string)
| RuntimeError (msg : string)
| AttributeError (msg : string)
| ValueError (msg : string)
| ZeroDivisionError (msg : string)
| OSError (msg : string)
| OtherException (name msg : string).

(** [isinstance(e, EngineError)], the test of [except EngineError:]. *)
Definition isinstance_EngineError (e : exn) : bool :=
  match e with
  | Engine_exn _ _ => true
  | _ => false
  end.

(** ** Data *)

(** [coords]: a 1-d array of 3N coordinates. *)
Abbreviation Coords := (list Qc).

(** The result dictionary [{'energy': .., 'gradient': .., 's2': ..}]; [s2]
    is the optional key. *)
Record Result : Type := mkResult {
  energy : Qc;
  gradient : list Qc;
  s2 : option Qc
}.

(** A value of [stored_calcs]: [{'coords': coords, 'result': result}]. *)
Record CacheEntry : Type := mkEntry {
  entry_coords : Coords;
  entry_result : Result
}.

(** An instance of (a subclass of) [Engine].  [stored_calcs] is [None] as
    long as the attribute has not been assigned, which is the case for an
    object whose constructor does not run [Engine.__init__]; [fields] holds
    the attributes the subclass adds. *)
Record Engine (F : Type) : Type := mkEngine {
  stored_calcs : option (gmap Z CacheEntry);
  fields : F
}.
Arguments mkEngine {F} _ _.
Arguments stored_calcs {F} _.
Arguments fields {F} _.

(** ** The monad of methods *)

Definition M (Σ A : Type) : Type := Σ → (exn + A) * Σ.

#[global] Instance M_ret {Σ} : MRet (M Σ) :=
  λ A a s, (inr a, s).

#[global] Instance M_bind {Σ} : MBind (M Σ) :=
  λ A B k m s,
    match m s with
    | (inr a, s') => k a s'
    | (inl e, s') => (inl e, s')
    end.

Definition raise {Σ A} (e : exn) : M Σ A :=
  λ s, (inl e, s).

Definition gets {Σ A} (f : Σ → A) : M Σ A :=
  λ s, (inr (f s), s).

Definition modify {Σ} (f : Σ → Σ) : M Σ unit :=
  λ s, (inr tt, f s).

(** [try: body / except <classes>: handler]; [catches] says which exceptions
    the clause names. *)
Definition try_except {Σ A} (body : M Σ A) (catches : exn → bool)
    (handler : exn → M Σ A) : M Σ A :=
  λ s,
    match body s with
    | (inl e, s') => if catches e then handler e s' else (inl e, s')
    | ok => ok
    end.

(** Run a computation on a part of the state. *)
Definition zoom {Σ Τ A} (view : Σ → Τ) (update : Τ → Σ → Σ) (m : M Τ A) : M Σ A :=
  λ s, let '(r, t) := m (view s) in (r, update t s).

(** ** The interpreter and the operating system *)

(** [hash(coords.tostring())]: Python's hash of the array's bytes.  It is a
    function of the bytes within one process and nothing more is assumed. *)
Class Hash : Type := hash_tostring : Coords → Z.

(** What the code asks of the [os] module, over an arbitrary world [W]. *)
Class Platform (W : Type) : Type := {
  os_path_exists : string → W → bool;
  os_makedirs : string → W → exn + W
}.

(** [os.path.join(a, b)] on a POSIX system, for two components. *)
Definition os_path_join (a b : string) : string :=
  if bool_decide (a = "") then b
  else if String.prefix "/" b then b
  else if String.prefix "/" (String.rev a) then a +:+ b
  else a +:+ "/" +:+ b.

(** The recurring line [if not os.path.exists(d): os.makedirs(d)]. *)
Definition makedirs_if_missing `{Platform W} (d : string) (w : W) : exn + W :=
  if os_path_exists d w then inr w else os_makedirs d w.

Definition run_os {W X} (op : W → exn + W) : M (X * W) unit :=
  λ '(x, w),
    match op w with
    | inr w' => (inr tt, (x, w'))
    | inl e => (inl e, (x, w))
    end.

(** ** Classes as method tables *)

(** The three methods a subclass of [Engine] may define.  No subclass in
    [engine.py] touches [stored_calcs], so a method acts on the subclass
    fields and the world; the [read_result] methods of the source ([Psi4],
    [QChem], [Molpro]) only read files, so [read_result] changes nothing. *)
Record EngineClass (F W : Type) : Type := mkClass {
  calc_new : Coords → string → M (F * W) Result;
  calc_wq_new : Coords → string → M (F * W) unit;
  read_result : option (string → F * W → exn + Result)
}.
Arguments mkClass {F W} _ _ _.
Arguments calc_new {F W} _ _ _.
Arguments calc_wq_new {F W} _ _ _.
Arguments read_result {F W} _.

(** [self.<method>(...)]: the method runs on the receiver's fields. *)
Definition call {F W A} (m : M (F * W) A) : M (Engine F * W) A :=
  zoom (λ '(o, w), (fields o, w))
       (λ '(f, w') '(o, _), (mkEngine (stored_calcs o) f, w'))
       m.

Module Engine.

Section Methods.
Context `{Hash} `{Platform W} {F : Type}.

(** [Engine.__init__]; [molecule_len] is [len(molecule)], and the deep copy
    of the molecule is part of [f]. *)
Definition __init__ (molecule_len : nat) (f : F) : exn + Engine F :=
  if bool_decide (molecule_len ≠ 1%nat)
  then inl (RuntimeError "Please pass only length-1 molecule objects to engine creation")
  else inr (mkEngine (Some ∅) f).

(** The three methods as [Engine] defines them. *)
Definition base_calc_new (coords : Coords) (dirname : string) : M (F * W) Result :=
  raise (NotImplementedError "Not implemented for the base class").

Definition base_calc_wq_new (coords : Coords) (dirname : string) : M (F * W) unit :=
  raise (NotImplementedError "Work Queue is not implemented for this class").

Definition base : EngineClass F W :=
  mkClass base_calc_new base_calc_wq_new None.

(** Reading the attribute [self.stored_calcs]. *)
Definition get_stored_calcs : M (Engine F * W) (gmap Z CacheEntry) :=
  λ '(o, w),
    match stored_calcs o with
    | Some sc => (inr sc, (o, w))
    | None => (inl (AttributeError "stored_calcs"), (o, w))
    end.

(** [self.stored_calcs[coord_hash] = {'coords':coords, 'result':result}]. *)
Definition store (coord_hash : Z) (coords : Coords) (result : Result)
    : M (Engine F * W) unit :=
  λ '(o, w),
    match stored_calcs o with
    | Some sc =>
        (inr tt, (mkEngine (Some (<[coord_hash := mkEntry coords result]> sc)) (fields o), w))
    | None => (inl (AttributeError "stored_calcs"), (o, w))
    end.

(** The block shared by [calc] and [calc_wq]:
<<
    read_success = False
    if readfiles and os.path.exists(dirname) and hasattr(self, 'read_result'):
        try:
            result = self.read_result(dirname)
            read_success = True
        except:
            logger.info(...)
>>
    [Some result] stands for [read_success = True]. *)
Definition try_read_result (cls : EngineClass F W) (dirname : string)
    (readfiles : bool) : M (Engine F * W) (option Result) :=
  λ '(o, w),
    if readfiles && os_path_exists dirname w then
      match read_result cls with
      | Some rr =>
          match rr dirname (fields o, w) with
          | inr result => (inr (Some result), (o, w))
          | inl _ => (inr None, (o, w))
          end
      | None => (inr None, (o, w))
      end
    else (inr None, (o, w)).

Definition calc (cls : EngineClass F W) (coords : Coords) (dirname : string)
    (readfiles : bool) : M (Engine F * W) Result :=
  let coord_hash := hash_tostring coords in
  sc ← get_stored_calcs;
  match sc !! coord_hash with
  | Some entry => mret (entry_result entry)
  | None =>
      read ← try_read_result cls dirname readfiles;
      result ← match read with
               | Some result => mret result
               | None =>
                   _ ← run_os (makedirs_if_missing dirname);
                   call (calc_new cls coords dirname)
               end;
      _ ← store coord_hash coords result;
      mret result
  end.

Definition clearCalcs : M (Engine F * W) unit :=
  λ '(o, w), (inr tt, (mkEngine (Some ∅) (fields o), w)).

Definition calc_wq (cls : EngineClass F W) (coords : Coords) (dirname : string)
    (readfiles : bool) : M (Engine F * W) unit :=
  let coord_hash := hash_tostring coords in
  sc ← get_stored_calcs;
  match sc !! coord_hash with
  | Some _ => mret tt
  | None =>
      read ← try_read_result cls dirname readfiles;
      match read with
      | Some _ => mret tt
      | None => call (calc_wq_new cls coords dirname)
      end
  end.

(** [self.read_result(dirname)] outside a [hasattr] guard. *)
Definition call_read_result (cls : EngineClass F W) (dirname : string)
    : M (Engine F * W) Result :=
  λ '(o, w),
    match read_result cls with
    | Some rr => (rr dirname (fields o, w), (o, w))
    | None => (inl (AttributeError "read_result"), (o, w))
    end.

Definition read_wq (cls : EngineClass F W) (coords : Coords) (dirname : string)
    : M (Engine F * W) Result :=
  let coord_hash := hash_tostring coords in
  sc ← get_stored_calcs;
  match sc !! coord_hash with
  | Some entry => mret (entry_result entry)
  | None =>
      exists_ ← gets (λ '(_, w), os_path_exists dirname w);
      if negb exists_
      then raise (RuntimeError ("In read_wq, " +:+ dirname +:+ " doesn't exist"))
      else
        result ← call_read_result cls dirname;
        _ ← store coord_hash coords result;
        mret result
  end.

End Methods.

End Engine.

(** ** Counting invocations *)

(** The design document checks how often the adapter runs "via an
    invocation-counting stub adapter".  [counting cls] is that test double
    for an arbitrary class: the same methods, each bumping its counter when
    it is entered, whatever its outcome. *)
Record Calls : Type := mkCalls {
  n_calc_new : nat;
  n_calc_wq_new : nat
}.

Definition counted {F W A} (bump : Calls → Calls) (m : M (F * W) A)
    : M ((F * Calls) * W) A :=
  λ '((f, c), w),
    let '(r, (f', w')) := m (f, w) in (r, ((f', bump c), w')).

Definition counting {F W} (cls : EngineClass F W) : EngineClass (F * Calls) W :=
  mkClass
    (λ coords dirname,
       counted (λ c, mkCalls (S (n_calc_new c)) (n_calc_wq_new c))
               (calc_new cls coords dirname))
    (λ coords dirname,
       counted (λ c, mkCalls (n_calc_new c) (S (n_calc_wq_new c)))
               (calc_wq_new cls coords dirname))
    (match read_result cls with
     | Some rr => Some (λ dirname '((f, _), w), rr dirname (f, w))
     | None => None
     end).

(** ** [Blank] *)

Module Blank.

Section Methods.
Context `{Platform W}.

Definition calc_new (coords : Coords) (dirname : string) : M (unit * W) Result :=
  let energy := Q2Qc 0 in
  let gradient := replicate (length coords) (Q2Qc 0) in
  mret (mkResult energy gradient None).

Definition cls : EngineClass unit W :=
  mkClass calc_new Engine.base_calc_wq_new None.

End Methods.

End Blank.

(** ** The work queue *)

(** A queued task: the command and the (local, remote) names of the files
    sent to and fetched from the worker. *)
Record Job : Type := mkJob {
  command : string;
  in_files : list (string * string);
  out_files : list (string * string)
}.

(** Modelled from the spec: [nifty.py] ([getWorkQueue], [queue_up_src_dest])
    and [molecule.py] ([Molecule.write]) are not among the sources.  The spec
    gives the distribution facility as [enqueue(command, input manifest,
    output manifest)]; writing a molecule creates the named file. *)
Class Facility (W : Type) : Type := {
  queue_up_src_dest : Job → W → W;
  molecule_write : string → W → exn + W
}.

(** ** [QChem]: submission to the work queue *)

Module QChem.

Record Fields : Type := mkFields {
  threads : option Z;
  qcdir : bool;
  M_xyzs : Coords;
  M_qcrems : gmap string string
}.

Section Methods.
Context `{Platform W} `{Facility W}.

(** [bohr2ang], a constant of [nifty.py]. *)
Variable bohr2ang : Qc.

(** What running the external program does ([calc_new]) and how its output
    files parse ([read_result]) are outside the model. *)
Variable qchem_calc_new : Coords → string → M (Fields * W) Result.
Variable qchem_read_result : string → Fields * W → exn + Result.

Definition nt (f : Fields) : string :=
  match threads f with
  | Some n => " -nt " +:+ pretty n
  | None => ""
  end.

Definition calc_wq_new (coords : Coords) (dirname : string) : M (Fields * W) unit :=
  _ ← run_os (makedirs_if_missing dirname);
  _ ← modify (λ '(f, w),
        (mkFields (threads f) (qcdir f) (Qcmult bohr2ang <$> coords) (M_qcrems f), w));
  _ ← modify (λ '(f, w),
        (mkFields (threads f) (qcdir f) (M_xyzs f) (<["jobtype" := "force"]> (M_qcrems f)), w));
  _ ← run_os (molecule_write (os_path_join dirname "run.in"));
  let in_files := [(dirname +:+ "/run.in", "run.in")] in
  let out_files := [(dirname +:+ "/run.out", "run.out");
                    (dirname +:+ "/run.log", "run.log")] in
  self_qcdir ← gets (λ '(f, _), qcdir f);
  if (self_qcdir : bool)
  then raise (RuntimeError "--qcdir currently not supported with Work Queue")
  else
    self_nt ← gets (λ '(f, _), nt f);
    modify (λ '(f, w),
      (f, queue_up_src_dest
            (mkJob ("qchem" +:+ self_nt +:+ " run.in run.out &> run.log")
                   in_files out_files) w)).

Definition cls : EngineClass Fields W :=
  mkClass qchem_calc_new calc_wq_new (Some qchem_read_result).

End Methods.

End QChem.

(** ** [QCEngineAPI] *)

Module QCEngineAPI.

(** The keys of the QCSchema input that the class reads or writes; the rest
    of the dictionary is handed to [qcengine] untouched. *)
Record Schema : Type := mkSchema {
  driver : string;
  molecule_geometry : Coords;
  program_key : option string
}.

(** The keys of the dictionary [qcengine.compute] returns that are read. *)
Record Ret : Type := mkRet {
  success : bool;
  error_message : string;
  return_energy : Qc;
  return_result : list Qc
}.

Record Fields : Type := mkFields {
  schema : Schema;
  program : string;
  schema_traj : list Ret
}.

Section Methods.
Context {W : Type}.

(** [qcengine.compute(schema, program, return_dict=True)], an external
    computation. *)
Variable qcengine_compute : Schema → string → W → Ret * W.

(** The constructor does not call [Engine.__init__]: the object has no
    [stored_calcs] attribute. *)
Definition __init__ (schema0 : Schema) (program0 : string) : Engine Fields :=
  mkEngine None
    (mkFields (mkSchema "gradient" (molecule_geometry schema0) (program_key schema0))
              program0 []).

Definition calc_new (coords : Coords) (dirname : string) : M (Fields * W) Result :=
  self_schema ← gets (λ '(f, _), schema f);
  let new_schema := mkSchema (driver self_schema) coords None in
  self_program ← gets (λ '(f, _), program f);
  ret ← ((λ '(f, w),
            let '(r, w') := qcengine_compute new_schema self_program w in
            (inr r, (f, w'))) : M (Fields * W) Ret);
  _ ← modify (λ '(f, w),
        (mkFields (schema f) (program f) (schema_traj f ++ [ret]), w));
  if negb (success ret)
  then raise (Engine_exn QCEngineAPIEngineError
                ("QCEngineAPI computation did not execute correctly. Message: "
                 +:+ error_message ret))
  else mret (mkResult (return_energy ret) (return_result ret) None).

(** The override: "overwrites the calc method of base class to skip caching
    and creating folders". *)
Definition calc (coords : Coords) (dirname : string) : M (Engine Fields * W) Result :=
  call (calc_new coords dirname).

Definition cls : EngineClass Fields W :=
  mkClass calc_new Engine.base_calc_wq_new None.

End Methods.

End QCEngineAPI.

(** ** numpy and float operations used by the objective *)

#[global] Instance exn_ret : MRet (sum exn) := λ A a, inr a.

#[global] Instance exn_bind : MBind (sum exn) :=
  λ A B k m, match m with inr a => k a | inl e => inl e end.

#[global] Instance exn_fmap : FMap (sum exn) :=
  λ A B f m, match m with inr a => inr (f a) | inl e => inl e end.

Definition lift_exn {Σ A} (r : exn + A) : M Σ A :=
  λ s, (r, s).

Module np.

(** An elementwise binary operation on 1-d arrays: equal lengths, or one
    operand of length one that is broadcast; anything else is numpy's
    [ValueError]. *)
Definition broadcast (op : Qc → Qc → Qc) (a b : list Qc) : exn + list Qc :=
  if bool_decide (length a = length b) then inr (zip_with op a b)
  else match a, b with
       | [x], _ => inr (op x <$> b)
       | _, [y] => inr ((λ x, op x y) <$> a)
       | _, _ => inl (ValueError "operands could not be broadcast together")
       end.

Definition add : list Qc → list Qc → exn + list Qc := broadcast Qcplus.
Definition sub : list Qc → list Qc → exn + list Qc := broadcast Qcminus.

(** [scalar * array]. *)
Definition scale (c : Qc) (a : list Qc) : list Qc := Qcmult c <$> a.

(** [np.dot] of two 1-d arrays; lengths must agree, there is no
    broadcasting. *)
Definition dot (a b : list Qc) : exn + Qc :=
  if bool_decide (length a = length b)
  then inr (foldr Qcplus (Q2Qc 0) (zip_with Qcmult a b))
  else inl (ValueError "shapes not aligned").

End np.

(** [x / y] on Python floats. *)
Definition truediv (x y : Qc) : exn + Qc :=
  if bool_decide (y = Q2Qc 0)
  then inl (ZeroDivisionError "float division by zero")
  else inr (x / y)%Qc.

(** ** [ConicalIntersection] *)

Module ConicalIntersection.

(** [self.engines = {1: engine1, 2: engine2}], [self.sigma], [self.alpha].
    The two sub-engines are objects of their own; each is held with its
    whole state. *)
Record Fields (S1 S2 : Type) : Type := mkFields {
  engine1 : S1;
  engine2 : S2;
  sigma : Qc;
  alpha : Qc
}.
Arguments mkFields {S1 S2} _ _ _ _.
Arguments engine1 {S1 S2} _.
Arguments engine2 {S1 S2} _.
Arguments sigma {S1 S2} _.
Arguments alpha {S1 S2} _.

(** The local variables of [calc_new] that its log line reports. *)
Record Locals : Type := mkLocals {
  I : Z;
  J : Z;
  EAvg : Qc;
  EDif : Qc;
  Penalty : Qc;
  Obj : Qc
}.

Local Open Scope Qc_scope.

(** The part of [calc_new] after the loop: from "Determine the higher energy
    state" to the [return].  [EDict] and [GDict] are the dictionaries filled
    by the loop, with keys 1 and 2.  [GAng] only goes to the log; of its
    computation the [np.dot], which can raise, is kept. *)
Definition calc_new_objective (sigma alpha : Qc) (spcalc1 spcalc2 : Result)
    : exn + (Locals * Result) :=
  let EDict (istate : Z) :=
    if bool_decide (istate = 1%Z) then energy spcalc1 else energy spcalc2 in
  let GDict (istate : Z) :=
    if bool_decide (istate = 1%Z) then gradient spcalc1 else gradient spcalc2 in
  let '(I, J) :=
    if bool_decide (EDict 1%Z < EDict 2%Z) then (2%Z, 1%Z) else (1%Z, 2%Z) in
  let EAvg := Q2Qc (1 # 2) * (EDict I + EDict J) in
  let EDif := EDict I - EDict J in
  GSum ← np.add (GDict I) (GDict J);
  let GAvg := np.scale (Q2Qc (1 # 2)) GSum in
  GDif ← np.sub (GDict I) (GDict J);
  _ ← np.dot (GDict I) (GDict J);
  Penalty ← truediv (EDif ^ 2) (EDif + alpha);
  let Obj := EAvg + sigma * Penalty in
  coef ← truediv (sigma * (EDif ^ 2 + 2 * alpha * EDif)) ((EDif + alpha) ^ 2);
  ObjGrad ← np.add GAvg (np.scale coef GDif);
  mret (mkLocals I J EAvg EDif Penalty Obj, mkResult Obj ObjGrad None).

Local Close Scope Qc_scope.

(** [os.path.join(dirname, 'state_%i' % istate)]. *)
Definition state_dnm (dirname : string) (istate : Z) : string :=
  os_path_join dirname ("state_" +:+ pretty istate).

Section Methods.
Context `{Platform W} {S1 S2 : Type}.

(** [self.engines[1].calc] and [self.engines[2].calc], whatever class each
    sub-engine has. *)
Variable calc1 : Coords → string → M (S1 * W) Result.
Variable calc2 : Coords → string → M (S2 * W) Result.

Definition engines_1_calc (coords : Coords) (state_dnm : string)
    : M (Fields S1 S2 * W) Result :=
  zoom (λ '(f, w), (engine1 f, w))
       (λ '(e, w') '(f, _), (mkFields e (engine2 f) (sigma f) (alpha f), w'))
       (calc1 coords state_dnm).

Definition engines_2_calc (coords : Coords) (state_dnm : string)
    : M (Fields S1 S2 * W) Result :=
  zoom (λ '(f, w), (engine2 f, w))
       (λ '(e, w') '(f, _), (mkFields (engine1 f) e (sigma f) (alpha f), w'))
       (calc2 coords state_dnm).

(** One turn of [for istate in [1, 2]], up to the call of the sub-engine. *)
Definition spcalc (istate : Z)
    (engines_calc : Coords → string → M (Fields S1 S2 * W) Result)
    (coords : Coords) (dirname : string) : M (Fields S1 S2 * W) Result :=
  _ ← run_os (makedirs_if_missing (state_dnm dirname istate));
  try_except (engines_calc coords (state_dnm dirname istate))
    isinstance_EngineError
    (λ _, raise (Engine_exn ConicalIntersectionEngineError "")).

Definition calc_new (coords : Coords) (dirname : string)
    : M (Fields S1 S2 * W) Result :=
  spcalc1 ← spcalc 1 engines_1_calc coords dirname;
  spcalc2 ← spcalc 2 engines_2_calc coords dirname;
  self_sigma ← gets (λ '(f, _), sigma f);
  self_alpha ← gets (λ '(f, _), alpha f);
  out ← lift_exn (calc_new_objective self_sigma self_alpha spcalc1 spcalc2);
  mret (out.2).

Definition cls : EngineClass (Fields S1 S2) W :=
  mkClass calc_new Engine.base_calc_wq_new None.

(** [ConicalIntersection.__init__]: the attributes, then
    [super().__init__(molecule)]. *)
Definition __init__ (molecule_len : nat) (e1 : S1) (e2 : S2) (sigma alpha : Qc)
    : exn + Engine (Fields S1 S2) :=
  Engine.__init__ molecule_len (mkFields e1 e2 sigma alpha).

End Methods.

End ConicalIntersection.

(** ** A concrete world *)

(** The smallest world the code can run in: the set of paths that exist and
    the tasks queued so far.  [os.makedirs] adds the path (the intermediate
    directories are not tracked) and fails on an existing one. *)
Record SimWorld : Type := mkWorld {
  paths : gset string;
  wq : list Job
}.

#[global] Instance SimWorld_platform : Platform SimWorld := {|
  os_path_exists d w := bool_decide (d ∈ paths w);
  os_makedirs d w :=
    if bool_decide (d ∈ paths w)
    then inl (OSError ("File exists: " +:+ d))
    else inr (mkWorld ({[d]} ∪ paths w) (wq w))
|}.

#[global] Instance SimWorld_facility : Facility SimWorld := {|
  queue_up_src_dest job w := mkWorld (paths w) (wq w ++ [job]);
  molecule_write fnm w := inr (mkWorld ({[fnm]} ∪ paths w) (wq w))
|}.

(** A hash for running examples: the coordinates folded into an integer. *)
Definition example_hash : Hash :=
  foldr (λ q h, (Qnum (this q) + 31 * Z.pos (Qden (this q)) + 1000003 * h)%Z) 7%Z.

(** ** Inputs for running the model *)

Module Examples.

(** H2 along the z axis, in Bohr. *)
Definition geometry : Coords :=
  [Q2Qc 0; Q2Qc 0; Q2Qc 0; Q2Qc 0; Q2Qc 0; Q2Qc 1.4].

Definition empty_world : SimWorld := mkWorld ∅ [].

(** A world in which the directory [opt.tmp] exists and is empty. *)
Definition tmp_world : SimWorld := mkWorld {["opt.tmp"]} [].

(** [Blank(molecule)] right after construction, plain and with counters. *)
Definition blank : Engine unit := mkEngine (Some ∅) tt.

Definition blank_counting : Engine (unit * Calls) :=
  mkEngine (Some ∅) (tt, mkCalls 0 0).

(** What [Blank.calc_new] returns for [geometry]. *)
Definition blank_result : Result :=
  mkResult (Q2Qc 0) (replicate 6 (Q2Qc 0)) None.

(** A [QChem] engine on a machine where the [qchem] binary is missing:
    [calc_new] ends in [QChemEngineError], and there is no output to read. *)
Definition qchem_cls : EngineClass QChem.Fields SimWorld :=
  QChem.cls (Q2Qc 0.529177210)
    (λ _ _, raise (Engine_exn QChemEngineError ""))
    (λ dirname _, inl (OSError ("No such file or directory: " +:+ dirname +:+ "/run.out"))).

Definition qchem : Engine QChem.Fields :=
  mkEngine (Some ∅) (QChem.mkFields None false geometry ∅).

(** The task that engine queues for [geometry] in [opt.tmp], and the fields
    and the world after [n] submissions. *)
Definition qchem_job : Job :=
  mkJob "qchem run.in run.out &> run.log"
    [("opt.tmp/run.in", "run.in")]
    [("opt.tmp/run.out", "run.out"); ("opt.tmp/run.log", "run.log")].

Definition qchem_submitted : QChem.Fields :=
  QChem.mkFields None false (Qcmult (Q2Qc 0.529177210) <$> geometry)
    {["jobtype" := "force"]}.

Definition world_submitted (n : nat) : SimWorld :=
  mkWorld {["opt.tmp"; "opt.tmp/run.in"]} (replicate n qchem_job).

(** An engine that can read its results back ([read_result] succeeds when
    [output.dat] exists in the directory) and computes [blank_result]. *)
Definition reader_cls : EngineClass unit SimWorld :=
  mkClass Blank.calc_new Engine.base_calc_wq_new
    (Some (λ dirname '(_, w),
       if bool_decide (dirname +:+ "/output.dat" ∈ paths w)
       then inr blank_result
       else inl (OSError ("No such file or directory: " +:+ dirname +:+ "/output.dat")))).

(** A conical-intersection engine over two [Blank] engines. *)
Definition blank_calc (coords : Coords) (dirname : string)
    : M (Engine unit * SimWorld) Result :=
  Engine.calc (H := example_hash) Blank.cls coords dirname false.

Definition ci_cls
    : EngineClass (ConicalIntersection.Fields (Engine unit) (Engine unit)) SimWorld :=
  ConicalIntersection.cls blank_calc blank_calc.

Definition ci : Engine (ConicalIntersection.Fields (Engine unit) (Engine unit)) :=
  mkEngine (Some ∅)
    (ConicalIntersection.mkFields blank blank (Q2Qc 3.5) (Q2Qc 0.02)).

(** The state of that engine after one evaluation of [geometry] in
    [opt.tmp]: the objective of two [Blank] results, the sub-engines with
    their entry, and the directories made on the way. *)
Definition ci_result : Result :=
  match ConicalIntersection.calc_new_objective (Q2Qc 3.5) (Q2Qc 0.02)
          blank_result blank_result with
  | inr (_, r) => r
  | inl _ => blank_result
  end.

Definition blank_cached : Engine unit :=
  mkEngine (Some {[example_hash geometry := mkEntry geometry blank_result]}) tt.

Definition ci_fields_evaluated : ConicalIntersection.Fields (Engine unit) (Engine unit) :=
  ConicalIntersection.mkFields blank_cached blank_cached (Q2Qc 3.5) (Q2Qc 0.02).

Definition ci_world_evaluated : SimWorld :=
  mkWorld {["opt.tmp"; "opt.tmp/state_1"; "opt.tmp/state_2"]} [].

(** A conical-intersection engine whose first state is the [QChem] engine
    above and whose second is [Blank]. *)
Definition qchem_calc (coords : Coords) (dirname : string)
    : M (Engine QChem.Fields * SimWorld) Result :=
  Engine.calc (H := example_hash) qchem_cls coords dirname false.

(** Stubs: sub-engines that return a fixed result and keep no state. *)
Definition stub (r : Result) (coords : Coords) (dirname : string)
    : M (unit * SimWorld) Result :=
  mret r.

Definition result_1 : Result :=
  mkResult (Q2Qc (-1)) [Q2Qc 0.01; Q2Qc 0; Q2Qc (-0.01)] None.

Definition result_2 : Result :=
  mkResult (Q2Qc (-1.0005)) [Q2Qc 0.02; Q2Qc 0.01; Q2Qc 0] None.

End Examples.

(** * More of [engine.py] *)

(** The gap between the two energies, higher minus lower, as
    [ConicalIntersection.calc_new] forms it. *)
Definition energy_gap (r1 r2 : Result) : Qc :=
  if bool_decide (energy r1 < energy r2)%Qc then (energy r2 - energy r1)%Qc
  else (energy r1 - energy r2)%Qc.

(** ** [QChem]: the local run *)

(** [subprocess.check_call(cmd, cwd=dirname, shell=True)]: what the command
    does to the world, or the exception it ends in ([OSError], or
    [CalledProcessError] for an exit status other than zero). *)
Class Shell (W : Type) : Type :=
  subprocess_check_call : string → string → W → exn + W.

(** The test of [except (OSError, IOError, RuntimeError,
    subprocess.CalledProcessError):].  [IOError] is [OSError], and
    [NotImplementedError] derives from [RuntimeError].  Modelled from the
    spec: the [EngineError] classes of [errors.py] are a family of their own,
    none of them derives from one of these builtins. *)
Definition isinstance_run_error (e : exn) : bool :=
  match e with
  | OSError _ | RuntimeError _ | NotImplementedError _ => true
  | OtherException name _ => bool_decide (name = "CalledProcessError")
  | _ => false
  end.

(** [coords.reshape(-1, 3)]: the rows are kept flat; the length has to be a
    multiple of three. *)
Definition reshape_rows3 (coords : Coords) : exn + Coords :=
  if bool_decide (length coords `mod` 3 = 0)%nat then inr coords
  else inl (ValueError "cannot reshape array into shape (3)").

Module QChem_local.

Section Methods.
Context `{Platform W} `{Facility W} `{Shell W}.

Variable bohr2ang : Qc.

(** [Molecule.edit_qcrems({key: val})] of [molecule.py], and
    [QChem.read_result], which parses the output files: both outside the
    model. *)
Variable edit_qcrems : string → option string → gmap string string → gmap string string.
Variable qchem_read_result : string → QChem.Fields * W → exn + Result.

Definition set_xyzs (xyz : Coords) (f : QChem.Fields) : QChem.Fields :=
  QChem.mkFields (QChem.threads f) (QChem.qcdir f) xyz (QChem.M_qcrems f).

Definition set_qcdir (b : bool) (f : QChem.Fields) : QChem.Fields :=
  QChem.mkFields (QChem.threads f) b (QChem.M_xyzs f) (QChem.M_qcrems f).

Definition set_qcrem (key : string) (val : option string) (f : QChem.Fields)
    : QChem.Fields :=
  QChem.mkFields (QChem.threads f) (QChem.qcdir f) (QChem.M_xyzs f)
    (edit_qcrems key val (QChem.M_qcrems f)).

Definition on_fields (g : QChem.Fields → QChem.Fields) : M (QChem.Fields * W) unit :=
  modify (λ '(f, w), (g f, w)).

Definition qchem_command (f : QChem.Fields) : string :=
  "qchem" +:+ QChem.nt f +:+ " -save run.in run.out run.d > run.log 2>&1".

Definition calc_new (coords : Coords) (dirname : string) : M (QChem.Fields * W) Result :=
  _ ← run_os (makedirs_if_missing dirname);
  xyz ← lift_exn (reshape_rows3 coords);
  _ ← on_fields (set_xyzs (Qcmult bohr2ang <$> xyz));
  _ ← on_fields (set_qcrem "jobtype" (Some "force"));
  self_qcdir ← gets (λ '(f, _), QChem.qcdir f);
  has_run_d ← gets (λ '(_, w), os_path_exists (os_path_join dirname "run.d") w);
  _ ← (if self_qcdir && negb has_run_d
       then _ ← on_fields (set_qcdir false);
            on_fields (set_qcrem "scf_guess" None)
       else mret tt);
  _ ← run_os (molecule_write (os_path_join dirname "run.in"));
  try_except
    (self_qcdir ← gets (λ '(f, _), QChem.qcdir f);
     cmd ← gets (λ '(f, _), qchem_command f);
     _ ← (if (self_qcdir : bool)
          then run_os (subprocess_check_call cmd dirname)
          else _ ← run_os (subprocess_check_call cmd dirname);
               _ ← on_fields (set_qcdir true);
               on_fields (set_qcrem "scf_guess" (Some "read")));
     (λ s, (qchem_read_result dirname s, s)) : M (QChem.Fields * W) Result)
    isinstance_run_error
    (λ _, raise (Engine_exn QChemEngineError "")).

Definition cls : EngineClass QChem.Fields W :=
  mkClass calc_new (QChem.calc_wq_new bohr2ang) (Some qchem_read_result).

End Methods.

End QChem_local.

(** ** [set_tcenv] *)

(** [os.environ]: the environment of the process, names to values. *)
Abbreviation Environ := (gmap string string).

(** [os.environ[key]]: [KeyError] for a name that is not set. *)
Definition environ_getitem (key : string) : M Environ string :=
  λ env,
    match env !! key with
    | Some v => (inr v, env)
    | None => (inl (OtherException "KeyError" key), env)
    end.

Definition set_tcenv : M Environ unit :=
  has_TeraChem ← gets (λ env : Environ, bool_decide (is_Some (env !! "TeraChem")));
  if negb has_TeraChem
  then raise (RuntimeError "Please set TeraChem environment variable")
  else
    TCHome ← environ_getitem "TeraChem";
    PATH ← environ_getitem "PATH";
    _ ← modify (λ env : Environ,
          <["PATH" := os_path_join TCHome "bin" +:+ ":" +:+ PATH]> env);
    LD_LIBRARY_PATH ← environ_getitem "LD_LIBRARY_PATH";
    modify (λ env : Environ,
      <["LD_LIBRARY_PATH" := os_path_join TCHome "lib" +:+ ":" +:+ LD_LIBRARY_PATH]> env).

(** ** [TeraChem] *)

Module TeraChem.

Section Methods.
Context `{Platform W} `{Shell W} {F : Type}.

(** Outside the model: [manage_guess], which copies guess files and returns
    their names; the part of [calc_new] from the QM/MM files to the writing
    of the start coordinates; and the part of [calc_wq_new] from [start_xyz]
    to the lists of input and output files.  Each may change the object and
    the world, and may raise. *)
Variable manage_guess : string → M (F * W) (list string).
Variable prepare_input : Coords → string → M (F * W) unit.
Variable prepare_input_wq : Coords → string → list string → M (F * W) unit.

(** [self.scr]. *)
Variable scr : F → string.

(** The last statement is [result = self.read_result(dirname)]; neither
    [TeraChem] nor [Engine] defines [read_result]. *)
Definition calc_new (coords : Coords) (dirname : string) : M (F * W) Result :=
  _ ← manage_guess dirname;
  _ ← prepare_input coords dirname;
  _ ← run_os (subprocess_check_call "terachem run.in > run.out" dirname);
  raise (AttributeError "read_result").

(** After the file lists comes
    [out_scr = ['ca0', 'cb0'] if unrestricted else ['c0']]; the name
    [unrestricted] is bound in [manage_guess] only. *)
Definition calc_wq_new (coords : Coords) (dirname : string) : M (F * W) unit :=
  _ ← run_os (makedirs_if_missing dirname);
  scrdir ← gets (λ '(f, _), os_path_join dirname (scr f));
  _ ← run_os (makedirs_if_missing scrdir);
  guessfnms ← manage_guess dirname;
  _ ← prepare_input_wq coords dirname guessfnms;
  raise (OtherException "NameError" "name 'unrestricted' is not defined").

(** The first [shutil.copy2] has [start_xyz] in its arguments, a name that
    is bound in [calc_new] and [calc_wq_new] only. *)
Definition number_output (dirname : string) (calcNum : Z) : M (F * W) unit :=
  run_out ← gets (λ '(_, w), os_path_exists (os_path_join dirname "run.out") w);
  if negb run_out
  then raise (RuntimeError "run.out does not exist")
  else raise (OtherException "NameError" "name 'start_xyz' is not defined").

Definition cls : EngineClass F W :=
  mkClass calc_new calc_wq_new None.

End Methods.

End TeraChem.

(** ** [Zmachine]: gradients by finite differences *)

Module Zmachine.

(** [len(self.M.elem)], [self.M.xyzs[0]] kept flat, and the two entries of
    [self.fd_options]. *)
Record Fields : Type := mkFields {
  elem_len : nat;
  M_xyzs : Coords;
  npoint : Z;
  d : Qc
}.

Local Open Scope Qc_scope.

(** [self.fd_formulae]: for each number of points the coefficients
    [c_{+n/2}, ..., c_1] and the denominator. *)
Definition fd_formulae (npoint : Z) : option (list Qc * Qc) :=
  if bool_decide (npoint = 2%Z) then Some ([Q2Qc 1], Q2Qc 2)
  else if bool_decide (npoint = 4%Z) then Some ([Q2Qc (-1); Q2Qc 8], Q2Qc 12)
  else if bool_decide (npoint = 6%Z) then Some ([Q2Qc 1; Q2Qc (-9); Q2Qc 45], Q2Qc 60)
  else None.

(** [np.einsum("ijk,k->ij", en, stencil)] on the flat array: every run of
    [npoint] energies is contracted with the stencil. *)
Fixpoint einsum_ijk_k (fuel npoint : nat) (stencil flat : list Qc) : list Qc :=
  match fuel with
  | O => []
  | S fuel' =>
      match flat with
      | [] => []
      | _ => foldr Qcplus (Q2Qc 0) (zip_with Qcmult (take npoint flat) stencil)
             :: einsum_ijk_k fuel' npoint stencil (drop npoint flat)
      end
  end.

(** [compute_gradient], with the result already flat ([ravel]).  The rows
    of [en] are joined; [calc_new] passes rows of one length. *)
Definition compute_gradient (npoint : Z) (disp : Qc) (en : list (list Qc))
    : exn + list Qc :=
  match (if bool_decide (npoint `mod` 2 = 0)%Z then fd_formulae npoint else None) with
  | None => inl (OtherException "AssertionError" "")
  | Some (num, denom) =>
      let flat := concat en in
      if bool_decide (length flat `mod` (3 * Z.to_nat npoint) = 0)%nat
      then
        let num := num ++ (Qcopp <$> reverse num) in
        let denom := denom * disp in
        let stencil := (λ c, c / denom) <$> num in
        inr (einsum_ijk_k (length flat) (Z.to_nat npoint) stencil flat)
      else inl (ValueError "cannot reshape array")
  end.

(** [range(npoint_one_way, -npoint_one_way-1, -1)]. *)
Definition sc_range (npoint_one_way : Z) : list Z :=
  (λ k, (npoint_one_way - Z.of_nat k)%Z) <$> seq 0 (Z.to_nat (2 * npoint_one_way + 1)).

(** [g = np.copy(xyz); g[at] += delta * self.basis[c]], where [basis] is
    the identity matrix. *)
Definition displace (xyz : Coords) (at_ c : nat) (delta : Qc) : exn + Coords :=
  if bool_decide (3 * at_ + c < length xyz)%nat
  then inr (alter (λ x, x + delta) (3 * at_ + c)%nat xyz)
  else inl (OtherException "IndexError" "index is out of bounds").

Section Methods.
Context `{Platform W}.

Variable bohr2ang : Qc.

(** What is done with [psi4] is outside the model: directing its output
    and setting its options, and the energy of one geometry (the geometry is
    written to a string, [psi4.geometry], [psi4.energy]).  The [import] is
    taken to succeed. *)
Variable psi4_setup : string → M (Fields * W) unit.
Variable psi4_energy : Coords → M (Fields * W) Qc.

Definition request_energy (geom : list (list Coords)) (dirname : string)
    : M (Fields * W) (list (list Qc)) :=
  _ ← run_os (makedirs_if_missing dirname);
  _ ← psi4_setup dirname;
  mapM (mapM psi4_energy) geom.

Definition calc_new (coords : Coords) (dirname : string) : M (Fields * W) Result :=
  rows ← lift_exn (reshape_rows3 coords);
  let xyz := Qcmult bohr2ang <$> rows in
  _ ← modify (λ '(f, w), (mkFields (elem_len f) xyz (npoint f) (d f), w));
  self_npoint ← gets (λ '(f, _), npoint f);
  let npoint_one_way := (self_npoint `div` 2)%Z in
  disp ← gets (λ '(f, _), d f);
  natoms ← gets (λ '(f, _), elem_len f);
  geometries ← lift_exn
    (mapM (λ at_,
       (λ per_axis : list (list Coords), concat per_axis) <$>
         mapM (λ c,
           mapM (λ sc, displace xyz at_ c (Q2Qc (inject_Z sc) * disp))
                (filter (λ sc, sc ≠ 0%Z) (sc_range npoint_one_way)))
           [0; 1; 2]%nat)
       (seq 0 natoms));
  energies ← request_energy geometries dirname;
  ref_gradient ← lift_exn (compute_gradient self_npoint disp energies);
  ref ← request_energy [[xyz]] dirname;
  ref_energy ← lift_exn (match ref with
                         | (e :: _) :: _ => inr e
                         | _ => inl (OtherException "IndexError" "list index out of range")
                         end);
  mret (mkResult ref_energy ref_gradient None).

End Methods.

End Zmachine.




(** ** More inputs for running the model *)

Module Cases.

(** Two geometries that [example_hash] does not tell apart. *)
Definition geometry_a : Coords := [Q2Qc 0; Q2Qc 0; Q2Qc 31].
Definition geometry_b : Coords := [Q2Qc 0; Q2Qc 0; Q2Qc (-31 # 3)].

Definition zero_result (n : nat) : Result :=
  mkResult (Q2Qc 0) (replicate n (Q2Qc 0)) None.

(** A [QChem] engine whose output can be read back once [run.out] is in
    the directory, and the world in which the queued task has run. *)
Definition read_run_out : string → QChem.Fields * SimWorld → exn + Result :=
  λ dirname '(_, w),
    if bool_decide (dirname +:+ "/run.out" ∈ paths w)
    then inr Examples.blank_result
    else inl (OSError ("No such file or directory: " +:+ dirname +:+ "/run.out")).

Definition qchem_reader_cls : EngineClass QChem.Fields SimWorld :=
  QChem.cls (Q2Qc 0.529177210)
    (λ _ _, raise (Engine_exn QChemEngineError "")) read_run_out.

Definition world_collected : SimWorld :=
  mkWorld {["opt.tmp"; "opt.tmp/run.in"; "opt.tmp/run.out"]} [Examples.qchem_job].

(** A world in which [opt.tmp] holds the output of an earlier run of
    [Examples.reader_cls]. *)
Definition world_with_output : SimWorld :=
  mkWorld {["opt.tmp"; "opt.tmp/output.dat"]} [].

(** A second result with the energy of [Examples.result_1]: a tie. *)
Definition result_tie : Result :=
  mkResult (Q2Qc (-1)) [Q2Qc 0.02; Q2Qc 0.01; Q2Qc 0] None.

(** An engine of the base class: its [calc_new] is not implemented. *)
Definition base_calc (coords : Coords) (dirname : string)
    : M (Engine unit * SimWorld) Result :=
  Engine.calc (H := example_hash) Engine.base coords dirname false.

(** A sub-engine that fails once: while its flag is set it raises
    [QChemEngineError] and clears the flag, afterwards it returns. *)
Definition flaky_calc (coords : Coords) (dirname : string)
    : M (bool * SimWorld) Result :=
  λ '(broken, w),
    if (broken : bool)
    then (inl (Engine_exn QChemEngineError ""), (false, w))
    else (inr Examples.blank_result, (false, w)).

Definition world_state_1 : SimWorld := mkWorld {["opt.tmp/state_1"]} [].

Definition world_states : SimWorld :=
  mkWorld {["opt.tmp/state_1"; "opt.tmp/state_2"]} [].

(** Shells: one in which the program runs and leaves [run.out], one in
    which the command is not found. *)
Definition shell_runs : Shell SimWorld :=
  λ cmd cwd w, inr (mkWorld ({[cwd +:+ "/run.out"]} ∪ paths w) (wq w)).

Definition shell_fails : Shell SimWorld :=
  λ cmd cwd w, inl (OtherException "CalledProcessError" "exit status 127").

(** Editing the rem variables: a value sets the variable, [None] removes
    it. *)
Definition edit_qcrems (key : string) (val : option string)
    (rems : gmap string string) : gmap string string :=
  match val with
  | Some v => <[key := v]> rems
  | None => delete key rems
  end.

(** An output in which a number cannot be parsed. *)
Definition garbled : string → QChem.Fields * SimWorld → exn + Result :=
  λ _ _, inl (ValueError "could not convert string to float").


Definition world_written : SimWorld :=
  mkWorld {["opt.tmp"; "opt.tmp/run.in"]} [].

Definition world_after_run : SimWorld :=
  mkWorld {["opt.tmp"; "opt.tmp/run.in"; "opt.tmp/run.out"]} [].

(** Environments with and without [LD_LIBRARY_PATH]. *)
Definition environ_without_ld : Environ :=
  {["TeraChem" := "/opt/terachem"; "PATH" := "/usr/bin"]}.

Definition environ_complete : Environ :=
  <["LD_LIBRARY_PATH" := "/usr/lib"]> environ_without_ld.

(** A [TeraChem] engine without guess files and without QM/MM. *)
Definition terachem_cls : EngineClass unit SimWorld :=
  TeraChem.cls (H0 := shell_runs)
    (λ _, mret []) (λ _ _, mret tt) (λ _ _ _, mret tt) (λ _, "scr").

(** A [qcengine] without the program that is asked for. *)
Definition qcengine_unavailable
    : QCEngineAPI.Schema → string → SimWorld → QCEngineAPI.Ret * SimWorld :=
  λ _ _ w, (QCEngineAPI.mkRet false "program not found" (Q2Qc 0) [], w).

Definition qcengine_object : Engine QCEngineAPI.Fields :=
  QCEngineAPI.__init__ (QCEngineAPI.mkSchema "energy" Examples.geometry (Some "psi4"))
    "psi4".

(** A [psi4] whose energy is the first coordinate of the geometry it is
    given, and a [Zmachine] for two atoms with the two-point formula. *)
Definition first_coordinate (g : Coords) : Qc := default (Q2Qc 0) (g !! 0%nat).

Definition psi4_setup (dirname : string) : M (Zmachine.Fields * SimWorld) unit :=
  mret tt.

Definition psi4_energy (g : Coords) : M (Zmachine.Fields * SimWorld) Qc :=
  mret (first_coordinate g).


End Cases.

(** * Properties *)

Ltac unfold_methods :=
  unfold Engine.calc, Engine.calc_wq, Engine.read_wq, Engine.call_read_result,
    Engine.get_stored_calcs, Engine.store, Engine.try_read_result,
    Engine.base_calc_wq_new, Engine.base_calc_new,
    call, zoom, run_os, lift_exn, gets, modify, raise, try_except,
    mbind, M_bind, mret, M_ret in *.

(** ** The cache of [Engine] *)

Section Cache.
Context `{Hash} `{Platform W} {F : Type}.
Implicit Types (cls : EngineClass F W) (sc : gmap Z CacheEntry).

(** A hit: the stored result, nothing else happens. *)
Lemma calc_hit cls coords dirname readfiles sc f w entry :
  sc !! hash_tostring coords = Some entry →
  Engine.calc cls coords dirname readfiles (mkEngine (Some sc) f, w)
  = (inr (entry_result entry), (mkEngine (Some sc) f, w)).
Proof. intros Hhit. unfold_methods. simpl. by rewrite Hhit. Qed.

(** A miss without reading from disk: the directory, then [calc_new], then
    the store. *)
Lemma calc_miss cls coords dirname sc f w :
  sc !! hash_tostring coords = None →
  Engine.calc cls coords dirname false (mkEngine (Some sc) f, w)
  = match makedirs_if_missing dirname w with
    | inl e => (inl e, (mkEngine (Some sc) f, w))
    | inr w0 =>
        match calc_new cls coords dirname (f, w0) with
        | (inr r, (f', w')) =>
            (inr r, (mkEngine (Some (<[hash_tostring coords := mkEntry coords r]> sc)) f', w'))
        | (inl e, (f', w')) => (inl e, (mkEngine (Some sc) f', w'))
        end
    end.
Proof.
  intros Hmiss. unfold_methods. simpl. rewrite Hmiss. simpl.
  destruct (makedirs_if_missing dirname w) as [e|w0]; [done|].
  simpl. destruct (calc_new cls coords dirname (f, w0)) as [[e|r] [f' w']]; done.
Qed.

(** Submission on a miss without reading from disk is [calc_wq_new]. *)
Lemma calc_wq_miss cls coords dirname sc f w :
  sc !! hash_tostring coords = None →
  Engine.calc_wq cls coords dirname false (mkEngine (Some sc) f, w)
  = let '(r, (f', w')) := calc_wq_new cls coords dirname (f, w) in
    (r, (mkEngine (Some sc) f', w')).
Proof.
  intros Hmiss. unfold_methods. simpl. rewrite Hmiss. simpl.
  by destruct (calc_wq_new cls coords dirname (f, w)) as [r [f' w']].
Qed.

(** An object without the attribute: every method of the base class that
    looks at the cache ends in [AttributeError]. *)
Lemma calc_wq_no_attribute cls coords dirname readfiles f w :
  Engine.calc_wq cls coords dirname readfiles (mkEngine None f, w)
  = (inl (AttributeError "stored_calcs"), (mkEngine None f, w)).
Proof. done. Qed.

End Cache.

Section CacheContract.
Context `{Hash} `{Platform W} {F : Type}.
Implicit Types (cls : EngineClass F W) (sc : gmap Z CacheEntry).

(** C1.  Let the fingerprint of [coords] be absent from the cache, let the
    working directory exist or be creatable, and let the adapter's
    [calc_new] return [r].  Then [calc(coords, dirname)] returns [r], a
    second [calc(coords, dirname)] returns the same [r] and leaves the whole
    state (cache, adapter, world) as the first call left it, and over the
    two calls the counting adapter has seen exactly one [calc_new]. *)
Theorem calc_twice_runs_calc_new_once cls coords dirname sc f n m w w0 r f' w' :
  sc !! hash_tostring coords = None →
  makedirs_if_missing dirname w = inr w0 →
  calc_new cls coords dirname (f, w0) = (inr r, (f', w')) →
  ∃ σ1,
    Engine.calc (counting cls) coords dirname false
      (mkEngine (Some sc) (f, mkCalls n m), w) = (inr r, σ1)
    ∧ Engine.calc (counting cls) coords dirname false σ1 = (inr r, σ1)
    ∧ n_calc_new (fields σ1.1).2 = S n.
Proof.
  intros Hmiss Hdir Hnew.
  exists (mkEngine (Some (<[hash_tostring coords := mkEntry coords r]> sc))
                   (f', mkCalls (S n) m), w').
  split; [|split].
  - rewrite calc_miss by done. rewrite Hdir. simpl. by rewrite Hnew.
  - rewrite (calc_hit _ _ _ _ _ _ _ (mkEntry coords r)); [done|].
    apply lookup_insert_eq.
  - done.
Qed.

(** C3.  On a miss with [readfiles] set, an existing directory and a class
    that has [read_result], a [read_result] that raises (whatever it raises)
    is not seen by the caller: [calc] goes on as on a plain miss, that is, it
    runs [calc_new] and its outcome is the outcome of [calc_new]. *)
Theorem calc_read_failure_is_miss cls rr coords dirname sc f w e :
  sc !! hash_tostring coords = None →
  os_path_exists dirname w = true →
  read_result cls = Some rr →
  rr dirname (f, w) = inl e →
  Engine.calc cls coords dirname true (mkEngine (Some sc) f, w)
  = Engine.calc cls coords dirname false (mkEngine (Some sc) f, w)
  ∧ Engine.calc cls coords dirname true (mkEngine (Some sc) f, w)
    = match calc_new cls coords dirname (f, w) with
      | (inr r, (f', w')) =>
          (inr r, (mkEngine (Some (<[hash_tostring coords := mkEntry coords r]> sc)) f', w'))
      | (inl e', (f', w')) => (inl e', (mkEngine (Some sc) f', w'))
      end.
Proof.
  intros Hmiss Hdir Hrr Hfail.
  assert (Engine.calc cls coords dirname true (mkEngine (Some sc) f, w)
          = Engine.calc cls coords dirname false (mkEngine (Some sc) f, w)) as Heq.
  { unfold_methods. simpl. rewrite Hmiss. simpl. rewrite Hdir. simpl. rewrite Hrr, Hfail. done. }
  split; [done|]. rewrite Heq, calc_miss by done.
  unfold makedirs_if_missing. by rewrite Hdir.
Qed.

(** C7.  A class that inherits [Engine.calc_wq_new] has no work-queue
    support.  For a fingerprint that is not cached and a directory from
    which nothing can be read back, [calc_wq] raises the
    [NotImplementedError] of the base class and leaves the object and the
    world exactly as they were: no directory, no task. *)
Theorem calc_wq_not_implemented cls coords dirname readfiles sc f w :
  calc_wq_new cls = Engine.base_calc_wq_new →
  sc !! hash_tostring coords = None →
  (Engine.try_read_result cls dirname readfiles (mkEngine (Some sc) f, w)).1 = inr None →
  Engine.calc_wq cls coords dirname readfiles (mkEngine (Some sc) f, w)
  = (inl (NotImplementedError "Work Queue is not implemented for this class"),
     (mkEngine (Some sc) f, w)).
Proof.
  intros Hbase Hmiss Hread. unfold_methods. simpl in *. rewrite Hmiss, Hbase. simpl.
  destruct (readfiles && os_path_exists dirname w); [|done].
  destruct (read_result cls) as [rr|]; [|done].
  destruct (rr dirname (f, w)); simplify_eq/=; done.
Qed.

(** C6, as the code has it.  [read_wq] returns the cached result on a hit
    and touches nothing.  On a miss it raises [RuntimeError], which is not an
    [EngineError], when the directory itself does not exist; when the
    directory exists it calls [read_result] on it: a result is stored under
    the fingerprint and returned, an exception of [read_result] reaches the
    caller as it is and nothing is stored. *)
Theorem read_wq_contract cls coords dirname sc f w :
  (∀ entry, sc !! hash_tostring coords = Some entry →
     Engine.read_wq cls coords dirname (mkEngine (Some sc) f, w)
     = (inr (entry_result entry), (mkEngine (Some sc) f, w)))
  ∧ (sc !! hash_tostring coords = None → os_path_exists dirname w = false →
     Engine.read_wq cls coords dirname (mkEngine (Some sc) f, w)
     = (inl (RuntimeError ("In read_wq, " +:+ dirname +:+ " doesn't exist")),
        (mkEngine (Some sc) f, w))
     ∧ isinstance_EngineError
         (RuntimeError ("In read_wq, " +:+ dirname +:+ " doesn't exist")) = false)
  ∧ (∀ rr, sc !! hash_tostring coords = None → os_path_exists dirname w = true →
     read_result cls = Some rr →
     Engine.read_wq cls coords dirname (mkEngine (Some sc) f, w)
     = match rr dirname (f, w) with
       | inr r =>
           (inr r, (mkEngine (Some (<[hash_tostring coords := mkEntry coords r]> sc)) f, w))
       | inl e => (inl e, (mkEngine (Some sc) f, w))
       end).
Proof.
  split; [|split].
  - intros entry Hhit. unfold_methods. simpl. by rewrite Hhit.
  - intros Hmiss Hdir. split; [|done].
    unfold_methods. simpl. rewrite Hmiss. simpl. by rewrite Hdir.
  - intros rr Hmiss Hdir Hrr. unfold_methods. simpl. rewrite Hmiss. simpl.
    rewrite Hdir, Hrr. simpl. by destruct (rr dirname (f, w)).
Qed.

(** C2, as the code has it.  [calc_wq] looks at the result cache only, and a
    submission does not change the result cache.  So for a fingerprint that
    is not cached, submitting, and submitting again before anything was
    collected, runs [calc_wq_new] both times: the counting adapter sees two
    submissions. *)
Theorem calc_wq_twice_submits_twice cls coords dirname sc f n m w f1 w1 f2 w2 :
  sc !! hash_tostring coords = None →
  calc_wq_new cls coords dirname (f, w) = (inr tt, (f1, w1)) →
  calc_wq_new cls coords dirname (f1, w1) = (inr tt, (f2, w2)) →
  Engine.calc_wq (counting cls) coords dirname false
    (mkEngine (Some sc) (f, mkCalls n m), w)
  = (inr tt, (mkEngine (Some sc) (f1, mkCalls n (S m)), w1))
  ∧ Engine.calc_wq (counting cls) coords dirname false
      (mkEngine (Some sc) (f1, mkCalls n (S m)), w1)
    = (inr tt, (mkEngine (Some sc) (f2, mkCalls n (S (S m))), w2)).
Proof.
  intros Hmiss H1 H2. rewrite !calc_wq_miss by done. simpl. by rewrite H1, H2.
Qed.

End CacheContract.

(** ** Arithmetic of the objective *)

Section Objective.
Local Open Scope Qc_scope.

Lemma broadcast_flip (op1 op2 : Qc → Qc → Qc) (f : Qc → Qc) (a b : list Qc) :
  (∀ x y, op2 y x = f (op1 x y)) →
  np.broadcast op2 b a
  = match np.broadcast op1 a b with
    | inr l => inr (f <$> l)
    | inl e => inl e
    end.
Proof.
  intros Hop. unfold np.broadcast.
  destruct (decide (length a = length b)) as [Heq|Hne].
  - rewrite !bool_decide_eq_true_2 by done. f_equal.
    revert b Heq. induction a as [|x a IH]; intros [|y b] Heq; simplify_eq/=; [done|].
    by rewrite Hop, IH.
  - rewrite !bool_decide_eq_false_2 by done.
    destruct a as [|x [|x' a]], b as [|y [|y' b]]; simplify_eq/=; try done.
    all: try (f_equal; rewrite ?Hop; done).
    all: rewrite !Hop, <-list_fmap_compose; do 3 f_equal;
      apply list_fmap_ext; intros ? ? _; simpl; apply Hop.
Qed.

Lemma np_add_comm (a b : list Qc) : np.add b a = np.add a b.
Proof.
  unfold np.add. rewrite (broadcast_flip Qcplus Qcplus id).
  - destruct (np.broadcast Qcplus a b); [done|]. by rewrite list_fmap_id.
  - intros x y. apply Qcplus_comm.
Qed.

Lemma np_sub_flip (a b : list Qc) :
  np.sub b a = match np.sub a b with inr l => inr (Qcopp <$> l) | inl e => inl e end.
Proof.
  unfold np.sub. apply broadcast_flip. intros x y. ring.
Qed.

Lemma np_dot_comm (a b : list Qc) : np.dot b a = np.dot a b.
Proof.
  unfold np.dot. destruct (decide (length a = length b)) as [Heq|Hne].
  - rewrite !bool_decide_eq_true_2 by done. do 2 f_equal.
    revert b Heq. induction a as [|x a IH]; intros [|y b] Heq; simplify_eq/=; [done|].
    by rewrite IH, Qcmult_comm.
  - by rewrite !bool_decide_eq_false_2.
Qed.

Lemma np_scale_zero_opp (l : list Qc) : np.scale 0 (Qcopp <$> l) = np.scale 0 l.
Proof.
  unfold np.scale. rewrite <-list_fmap_compose. apply list_fmap_ext.
  intros ? x _. simpl. ring.
Qed.

Ltac red_exn :=
  cbn [mbind exn_bind fmap exn_fmap mret exn_ret fst snd].

Ltac step_exn :=
  match goal with
  | |- context [@mbind (sum exn) _ _ _ _ ?m] => destruct m; red_exn; try reflexivity
  end.

Ltac pick_states :=
  cbn beta iota zeta;
  rewrite ?(bool_decide_eq_true_2 (1%Z = 1%Z)) by reflexivity;
  rewrite ?(bool_decide_eq_false_2 (2%Z = 1%Z)) by discriminate.

Lemma truediv_zero (d : Qc) :
  truediv 0 d
  = if bool_decide (d = 0) then inl (ZeroDivisionError "float division by zero")
    else inr 0.
Proof.
  unfold truediv. case_bool_decide; [done|]. f_equal. unfold Qcdiv. ring.
Qed.

Lemma truediv_nonzero (x y : Qc) : y ≠ 0 → truediv x y = inr (x / y).
Proof. intros Hy. unfold truediv. case_bool_decide; [contradiction|reflexivity]. Qed.

(** The objective does not depend on which result is listed first. *)
Lemma objective_swap (sigma alpha : Qc) (r1 r2 : Result) :
  snd <$> ConicalIntersection.calc_new_objective sigma alpha r2 r1
  = snd <$> ConicalIntersection.calc_new_objective sigma alpha r1 r2.
Proof.
  unfold ConicalIntersection.calc_new_objective.
  destruct r1 as [E1 G1 s1], r2 as [E2 G2 s2]. cbn [energy gradient].
  destruct (decide (E1 < E2)) as [Hlt|Hnlt].
  - rewrite (bool_decide_eq_true_2 (E1 < E2)) by done.
    rewrite (bool_decide_eq_false_2 (E2 < E1)); [|by apply Qcle_not_lt, Qclt_le_weak].
    pick_states. repeat step_exn.
  - rewrite (bool_decide_eq_false_2 (E1 < E2)) by done.
    destruct (decide (E2 < E1)) as [Hgt|Hngt].
    + rewrite (bool_decide_eq_true_2 (E2 < E1)) by done. pick_states. repeat step_exn.
    + rewrite (bool_decide_eq_false_2 (E2 < E1)) by done. pick_states.
      assert (E1 = E2) as ->.
      { apply Qcle_antisym; by apply Qcnot_lt_le. }
      rewrite (np_add_comm G1 G2), (np_dot_comm G1 G2), (np_sub_flip G1 G2).
      destruct (np.add G1 G2) as [?|GSum]; red_exn; [reflexivity|].
      destruct (np.sub G1 G2) as [?|GDif]; red_exn; [reflexivity|].
      destruct (np.dot G1 G2) as [?|?]; red_exn; [reflexivity|].
      match goal with
      | |- context [truediv (sigma * ?n) ?d] =>
          replace (sigma * n) with (Q2Qc 0) by (cbn [Qcpower]; ring);
          rewrite (truediv_zero d)
      end.
      step_exn. case_bool_decide; red_exn; [reflexivity|].
      rewrite np_scale_zero_opp. by step_exn.
Qed.

(** C9.  With energies -1.000000 and -1.000500, alpha = 0.02 and
    sigma = 3.5 (and any two gradients of one length) the method computes
    EDif = 0.0005 and Penalty = 0.0005^2 / (0.0005 + 0.02), which lies
    within 5e-10 of 1.2195e-5, and returns the energy
    -1.00025 + 3.5 * Penalty, which lies within 1e-7 of -1.0002073. *)
Theorem worked_example (G1 G2 : list Qc) :
  length G1 = length G2 →
  ∃ l r,
    ConicalIntersection.calc_new_objective (Q2Qc 3.5) (Q2Qc 0.02)
      (mkResult (Q2Qc (-1)) G1 None) (mkResult (Q2Qc (-1.0005)) G2 None)
    = inr (l, r)
    ∧ ConicalIntersection.EDif l = Q2Qc 0.0005
    ∧ ConicalIntersection.Penalty l = Q2Qc 0.0005 ^ 2 / (Q2Qc 0.0005 + Q2Qc 0.02)
    ∧ Q2Qc 1.21945e-5 < ConicalIntersection.Penalty l < Q2Qc 1.21955e-5
    ∧ energy r = Q2Qc (-1.00025) + Q2Qc 3.5 * ConicalIntersection.Penalty l
    ∧ Q2Qc (-1.0002074) < energy r < Q2Qc (-1.0002072).
Proof.
  intros Hlen. unfold ConicalIntersection.calc_new_objective.
  cbn [energy gradient].
  case_bool_decide as Hlt; [exfalso; vm_compute in Hlt; discriminate|].
  pick_states.
  unfold np.add, np.sub, np.dot, np.broadcast.
  rewrite !bool_decide_eq_true_2 by done. cbn [mbind exn_bind].
  rewrite !truediv_nonzero
    by (intros Hc; apply (f_equal this) in Hc; vm_compute in Hc; discriminate).
  cbn [mbind exn_bind].
  rewrite bool_decide_eq_true_2
    by (unfold np.scale; rewrite !length_fmap, !length_zip_with; lia).
  cbn [mbind exn_bind mret exn_ret].
  do 2 eexists. split; [reflexivity|].
  cbn [ConicalIntersection.EDif ConicalIntersection.Penalty energy].
  split; [apply Qc_is_canon; vm_compute; reflexivity|].
  split; [apply Qc_is_canon; vm_compute; reflexivity|].
  split; [split; vm_compute; reflexivity|].
  split; [apply Qc_is_canon; vm_compute; reflexivity|].
  split; vm_compute; reflexivity.
Qed.
End Objective.

(** ** [ConicalIntersection] *)

Section Composite.
Context `{Platform W} {S1 S2 : Type}.
Variable calc1 : Coords → string → M (S1 * W) Result.
Variable calc2 : Coords → string → M (S2 * W) Result.

(** One turn of the loop: the sub-directory, the sub-engine, and the
    [except EngineError] clause. *)
Lemma spcalc_run istate engines_calc coords dirname
    (fs : ConicalIntersection.Fields S1 S2) (w : W) :
  ConicalIntersection.spcalc istate engines_calc coords dirname (fs, w)
  = match makedirs_if_missing (ConicalIntersection.state_dnm dirname istate) w with
    | inl e => (inl e, (fs, w))
    | inr w1 =>
        match engines_calc coords (ConicalIntersection.state_dnm dirname istate) (fs, w1) with
        | (inl e, s') =>
            if isinstance_EngineError e
            then (inl (Engine_exn ConicalIntersectionEngineError ""), s')
            else (inl e, s')
        | (inr r, s') => (inr r, s')
        end
    end.
Proof.
  unfold ConicalIntersection.spcalc. unfold_methods.
  destruct (makedirs_if_missing _ w) as [e|w1]; [done|].
  by destruct (engines_calc _ _ (fs, w1)) as [[e|r] s'].
Qed.

(** C5.  When the sub-engine of state 1 raises an [EngineError], [calc_new]
    raises [ConicalIntersectionEngineError]; the object of state 2 and the
    world are as state 1 left them, so state 2 was not evaluated, not even
    its directory made.  When state 1 returns and the sub-engine of state 2
    raises an [EngineError], [calc_new] raises
    [ConicalIntersectionEngineError] as well.  In both cases the outcome is
    the exception: no result is returned. *)
Theorem sub_engine_error_is_wrapped coords dirname e1 e2 sigma alpha w e :
  isinstance_EngineError e = true →
  (∀ w1 e1' w1',
     makedirs_if_missing (ConicalIntersection.state_dnm dirname 1) w = inr w1 →
     calc1 coords (ConicalIntersection.state_dnm dirname 1) (e1, w1) = (inl e, (e1', w1')) →
     ConicalIntersection.calc_new calc1 calc2 coords dirname
       (ConicalIntersection.mkFields e1 e2 sigma alpha, w)
     = (inl (Engine_exn ConicalIntersectionEngineError ""),
        (ConicalIntersection.mkFields e1' e2 sigma alpha, w1')))
  ∧ (∀ w1 r1 e1' w1' w2 e2' w2',
     makedirs_if_missing (ConicalIntersection.state_dnm dirname 1) w = inr w1 →
     calc1 coords (ConicalIntersection.state_dnm dirname 1) (e1, w1) = (inr r1, (e1', w1')) →
     makedirs_if_missing (ConicalIntersection.state_dnm dirname 2) w1' = inr w2 →
     calc2 coords (ConicalIntersection.state_dnm dirname 2) (e2, w2) = (inl e, (e2', w2')) →
     ConicalIntersection.calc_new calc1 calc2 coords dirname
       (ConicalIntersection.mkFields e1 e2 sigma alpha, w)
     = (inl (Engine_exn ConicalIntersectionEngineError ""),
        (ConicalIntersection.mkFields e1' e2' sigma alpha, w2'))).
Proof.
  intros He. split.
  - intros w1 e1' w1' Hdir Hcalc.
    unfold ConicalIntersection.calc_new.
    unfold mbind at 1, M_bind at 1. rewrite spcalc_run, Hdir.
    unfold ConicalIntersection.engines_1_calc, zoom.
    cbn [ConicalIntersection.engine1 ConicalIntersection.engine2
         ConicalIntersection.sigma ConicalIntersection.alpha].
    by rewrite Hcalc, He.
  - intros w1 r1 e1' w1' w2 e2' w2' Hdir1 Hcalc1 Hdir2 Hcalc2.
    unfold ConicalIntersection.calc_new.
    unfold mbind at 1, M_bind at 1. rewrite spcalc_run, Hdir1.
    unfold ConicalIntersection.engines_1_calc at 1, zoom at 1.
    cbn [ConicalIntersection.engine1 ConicalIntersection.engine2
         ConicalIntersection.sigma ConicalIntersection.alpha].
    rewrite Hcalc1.
    unfold mbind at 1, M_bind at 1. rewrite spcalc_run, Hdir2.
    unfold ConicalIntersection.engines_2_calc, zoom.
    cbn [ConicalIntersection.engine1 ConicalIntersection.engine2
         ConicalIntersection.sigma ConicalIntersection.alpha].
    by rewrite Hcalc2, He.
Qed.

(** A sub-directory that cannot be made ends [calc_new] with the error of
    [os.makedirs]. *)
Lemma calc_new_dir1_fails coords dirname fs w e :
  makedirs_if_missing (ConicalIntersection.state_dnm dirname 1) w = inl e →
  ConicalIntersection.calc_new calc1 calc2 coords dirname (fs, w) = (inl e, (fs, w)).
Proof.
  intros Hdir. unfold ConicalIntersection.calc_new.
  unfold mbind at 1, M_bind at 1. by rewrite spcalc_run, Hdir.
Qed.

Lemma calc_new_dir2_fails coords dirname e1 e2 sigma alpha w w1 r1 e1' w1' e :
  makedirs_if_missing (ConicalIntersection.state_dnm dirname 1) w = inr w1 →
  calc1 coords (ConicalIntersection.state_dnm dirname 1) (e1, w1) = (inr r1, (e1', w1')) →
  makedirs_if_missing (ConicalIntersection.state_dnm dirname 2) w1' = inl e →
  ConicalIntersection.calc_new calc1 calc2 coords dirname
    (ConicalIntersection.mkFields e1 e2 sigma alpha, w)
  = (inl e, (ConicalIntersection.mkFields e1' e2 sigma alpha, w1')).
Proof.
  intros Hdir1 Hcalc1 Hdir2.
  unfold ConicalIntersection.calc_new.
  unfold mbind at 1, M_bind at 1. rewrite spcalc_run, Hdir1.
  unfold ConicalIntersection.engines_1_calc at 1, zoom at 1.
  cbn [ConicalIntersection.engine1 ConicalIntersection.engine2
       ConicalIntersection.sigma ConicalIntersection.alpha].
  rewrite Hcalc1.
  unfold mbind at 1, M_bind at 1. by rewrite spcalc_run, Hdir2.
Qed.

(** When both sub-engines return, [calc_new] is the objective of the two
    results. *)
Lemma calc_new_of_results coords dirname e1 e2 sigma alpha w w1 r1 e1' w1' w2 r2 e2' w2' :
  makedirs_if_missing (ConicalIntersection.state_dnm dirname 1) w = inr w1 →
  calc1 coords (ConicalIntersection.state_dnm dirname 1) (e1, w1) = (inr r1, (e1', w1')) →
  makedirs_if_missing (ConicalIntersection.state_dnm dirname 2) w1' = inr w2 →
  calc2 coords (ConicalIntersection.state_dnm dirname 2) (e2, w2) = (inr r2, (e2', w2')) →
  ConicalIntersection.calc_new calc1 calc2 coords dirname
    (ConicalIntersection.mkFields e1 e2 sigma alpha, w)
  = (snd <$> ConicalIntersection.calc_new_objective sigma alpha r1 r2,
     (ConicalIntersection.mkFields e1' e2' sigma alpha, w2')).
Proof.
  intros Hdir1 Hcalc1 Hdir2 Hcalc2.
  unfold ConicalIntersection.calc_new.
  unfold mbind at 1, M_bind at 1. rewrite spcalc_run, Hdir1.
  unfold ConicalIntersection.engines_1_calc at 1, zoom at 1.
  cbn [ConicalIntersection.engine1 ConicalIntersection.engine2
       ConicalIntersection.sigma ConicalIntersection.alpha].
  rewrite Hcalc1.
  unfold mbind at 1, M_bind at 1. rewrite spcalc_run, Hdir2.
  unfold ConicalIntersection.engines_2_calc, zoom.
  cbn [ConicalIntersection.engine1 ConicalIntersection.engine2
       ConicalIntersection.sigma ConicalIntersection.alpha].
  rewrite Hcalc2.
  unfold mbind, M_bind, gets, lift_exn, mret, M_ret.
  cbn [ConicalIntersection.sigma ConicalIntersection.alpha].
  by destruct (ConicalIntersection.calc_new_objective sigma alpha r1 r2) as [?|[? ?]].
Qed.

End Composite.

Section Roles.
Context `{Platform W} {SA SB : Type}.

(** C8.  Take two sub-engines that are stubs: each returns its fixed result
    and changes nothing.  Whether the first stands for state 1 and the second
    for state 2 or the other way round, [calc_new] has the same outcome (the
    same energy and gradient, or the same exception) and leaves the same
    world. *)
Theorem swapping_roles_keeps_objective
    (calcA : Coords → string → M (SA * W) Result)
    (calcB : Coords → string → M (SB * W) Result)
    (rA rB : Result) coords dirname eA eB sigma alpha w :
  (∀ c d s, calcA c d s = (inr rA, s)) →
  (∀ c d s, calcB c d s = (inr rB, s)) →
  (ConicalIntersection.calc_new calcA calcB coords dirname
     (ConicalIntersection.mkFields eA eB sigma alpha, w)).1
  = (ConicalIntersection.calc_new calcB calcA coords dirname
       (ConicalIntersection.mkFields eB eA sigma alpha, w)).1
  ∧ (ConicalIntersection.calc_new calcA calcB coords dirname
       (ConicalIntersection.mkFields eA eB sigma alpha, w)).2.2
    = (ConicalIntersection.calc_new calcB calcA coords dirname
         (ConicalIntersection.mkFields eB eA sigma alpha, w)).2.2.
Proof.
  intros HA HB.
  destruct (makedirs_if_missing (ConicalIntersection.state_dnm dirname 1) w)
    as [e|w1] eqn:Hdir1.
  { by rewrite !calc_new_dir1_fails with (e := e). }
  destruct (makedirs_if_missing (ConicalIntersection.state_dnm dirname 2) w1)
    as [e|w2] eqn:Hdir2.
  { rewrite (calc_new_dir2_fails calcA calcB _ _ _ _ _ _ _ w1 rA eA w1 e) by done.
    by rewrite (calc_new_dir2_fails calcB calcA _ _ _ _ _ _ _ w1 rB eB w1 e). }
  rewrite (calc_new_of_results calcA calcB _ _ _ _ _ _ _ w1 rA eA w1 w2 rB eB w2)
    by done.
  rewrite (calc_new_of_results calcB calcA _ _ _ _ _ _ _ w1 rB eB w1 w2 rA eA w2)
    by done.
  cbn [fst snd]. by rewrite objective_swap.
Qed.

End Roles.

Section CompositeCache.
Context `{Hash} `{Platform W} {S1 S2 : Type}.
Variable calc1 : Coords → string → M (S1 * W) Result.
Variable calc2 : Coords → string → M (S2 * W) Result.

(** C4, as the code has it.  [ConicalIntersection.__init__] runs
    [Engine.__init__], so the composite owns a [stored_calcs] of its own, and
    it inherits [Engine.calc]: evaluating the composite through [calc] at a
    geometry it has not seen stores the objective under the fingerprint in
    the composite's own cache, next to whatever the sub-engines did to their
    state. *)
Theorem composite_calc_stores_objective coords dirname sc fs w w0 r fs' w' :
  sc !! hash_tostring coords = None →
  makedirs_if_missing dirname w = inr w0 →
  ConicalIntersection.calc_new calc1 calc2 coords dirname (fs, w0) = (inr r, (fs', w')) →
  Engine.calc (ConicalIntersection.cls calc1 calc2) coords dirname false
    (mkEngine (Some sc) fs, w)
  = (inr r, (mkEngine (Some (<[hash_tostring coords := mkEntry coords r]> sc)) fs', w'))
  ∧ ∀ (e1 : S1) (e2 : S2) sigma alpha,
      stored_calcs <$> ConicalIntersection.__init__ 1 e1 e2 sigma alpha
      = inr (Some ∅).
Proof.
  intros Hmiss Hdir Hnew. split; [|done].
  rewrite calc_miss by done. rewrite Hdir.
  cbn [calc_new ConicalIntersection.cls]. by rewrite Hnew.
Qed.

End CompositeCache.

(** ** [QCEngineAPI] *)

Section QCEngine.
Context {W : Type}.
Variable qcengine_compute : QCEngineAPI.Schema → string → W → QCEngineAPI.Ret * W.

(** What one [calc_new] does to the object and the world. *)
Lemma qcengine_calc_new_run coords dirname (f : QCEngineAPI.Fields) (w : W) :
  let new_schema :=
    QCEngineAPI.mkSchema (QCEngineAPI.driver (QCEngineAPI.schema f)) coords None in
  let ret := (qcengine_compute new_schema (QCEngineAPI.program f) w).1 in
  let w' := (qcengine_compute new_schema (QCEngineAPI.program f) w).2 in
  QCEngineAPI.calc_new qcengine_compute coords dirname (f, w)
  = (if QCEngineAPI.success ret
     then inr (mkResult (QCEngineAPI.return_energy ret) (QCEngineAPI.return_result ret) None)
     else inl (Engine_exn QCEngineAPIEngineError
                 ("QCEngineAPI computation did not execute correctly. Message: "
                  +:+ QCEngineAPI.error_message ret)),
     (QCEngineAPI.mkFields (QCEngineAPI.schema f) (QCEngineAPI.program f)
        (QCEngineAPI.schema_traj f ++ [ret]), w')).
Proof.
  unfold QCEngineAPI.calc_new. unfold_methods.
  cbn [QCEngineAPI.schema QCEngineAPI.program QCEngineAPI.schema_traj].
  destruct (qcengine_compute _ _ w) as [ret w'']. cbn [fst snd].
  by destruct (QCEngineAPI.success ret).
Qed.

(** C10.  [QCEngineAPI.calc] is [calc_new] on the receiver: whatever
    [stored_calcs] is (absent, or holding an entry for this very geometry)
    it is neither read nor written, the world changes only through
    [qcengine.compute] (no directory is made), and every call computes: two
    calls with the same coordinates add two entries to [schema_traj]. *)
Theorem qcengine_calc_is_calc_new coords dirname (o : Engine QCEngineAPI.Fields) (w : W) :
  let run1 := QCEngineAPI.calc qcengine_compute coords dirname (o, w) in
  let run2 := QCEngineAPI.calc qcengine_compute coords dirname run1.2 in
  let new_schema :=
    QCEngineAPI.mkSchema (QCEngineAPI.driver (QCEngineAPI.schema (fields o))) coords None in
  (run1.1, (fields run1.2.1, run1.2.2))
    = QCEngineAPI.calc_new qcengine_compute coords dirname (fields o, w)
  ∧ stored_calcs run1.2.1 = stored_calcs o
  ∧ stored_calcs run2.2.1 = stored_calcs o
  ∧ run1.2.2 = (qcengine_compute new_schema (QCEngineAPI.program (fields o)) w).2
  ∧ run2.2.2
    = (qcengine_compute new_schema (QCEngineAPI.program (fields o)) run1.2.2).2
  ∧ length (QCEngineAPI.schema_traj (fields run2.2.1))
    = S (S (length (QCEngineAPI.schema_traj (fields o)))).
Proof.
  unfold QCEngineAPI.calc, call, zoom. cbn zeta.
  destruct o as [sc f]. cbn [fields stored_calcs].
  rewrite !qcengine_calc_new_run. cbn [fst snd fields stored_calcs].
  rewrite !qcengine_calc_new_run.
  cbn [fst snd fields stored_calcs QCEngineAPI.schema QCEngineAPI.program
       QCEngineAPI.schema_traj].
  repeat split. rewrite !length_app. cbn [length]. lia.
Qed.

End QCEngine.

(** ** The properties at concrete inputs *)

Section Runs.
#[local] Existing Instance example_hash.

Lemma calc_twice_runs_calc_new_once_witness :
  ∃ σ1,
    Engine.calc (counting Blank.cls) Examples.geometry "opt.tmp" false
      (Examples.blank_counting, Examples.empty_world) = (inr Examples.blank_result, σ1)
    ∧ Engine.calc (counting Blank.cls) Examples.geometry "opt.tmp" false σ1
      = (inr Examples.blank_result, σ1)
    ∧ n_calc_new (fields σ1.1).2 = 1%nat.
Proof.
  apply (calc_twice_runs_calc_new_once Blank.cls Examples.geometry "opt.tmp"
           ∅ tt 0 0 Examples.empty_world Examples.tmp_world
           Examples.blank_result tt Examples.tmp_world).
  - reflexivity.
  - vm_compute. reflexivity.
  - reflexivity.
Defined.

Lemma calc_read_failure_is_miss_witness :
  Engine.calc Examples.reader_cls Examples.geometry "opt.tmp" true
    (Examples.blank, Examples.tmp_world)
  = Engine.calc Examples.reader_cls Examples.geometry "opt.tmp" false
      (Examples.blank, Examples.tmp_world)
  ∧ Engine.calc Examples.reader_cls Examples.geometry "opt.tmp" true
      (Examples.blank, Examples.tmp_world)
    = (inr Examples.blank_result,
       (mkEngine (Some {[hash_tostring Examples.geometry
                         := mkEntry Examples.geometry Examples.blank_result]}) tt,
        Examples.tmp_world)).
Proof.
  apply (calc_read_failure_is_miss Examples.reader_cls
           (λ dirname '(_, w),
              if bool_decide (dirname +:+ "/output.dat" ∈ paths w)
              then inr Examples.blank_result
              else inl (OSError ("No such file or directory: " +:+ dirname +:+ "/output.dat")))
           Examples.geometry "opt.tmp" ∅ tt Examples.tmp_world
           (OSError "No such file or directory: opt.tmp/output.dat")).
  - reflexivity.
  - vm_compute. reflexivity.
  - reflexivity.
  - vm_compute. reflexivity.
Defined.

Lemma calc_wq_not_implemented_witness :
  Engine.calc_wq Examples.reader_cls Examples.geometry "opt.tmp" true
    (Examples.blank, Examples.tmp_world)
  = (inl (NotImplementedError "Work Queue is not implemented for this class"),
     (Examples.blank, Examples.tmp_world)).
Proof.
  apply (calc_wq_not_implemented Examples.reader_cls Examples.geometry "opt.tmp" true
           ∅ tt Examples.tmp_world).
  - reflexivity.
  - reflexivity.
  - vm_compute. reflexivity.
Defined.

(** [read_wq] for a directory that was never made: the exception is
    Python's [RuntimeError], and no [EngineError]. *)
Lemma read_wq_missing_directory :
  (Engine.read_wq Examples.reader_cls Examples.geometry "opt.tmp"
     (Examples.blank, Examples.empty_world)).1
  = inl (RuntimeError "In read_wq, opt.tmp doesn't exist")
  ∧ ¬ ∃ e,
      (Engine.read_wq Examples.reader_cls Examples.geometry "opt.tmp"
         (Examples.blank, Examples.empty_world)).1 = inl e
      ∧ isinstance_EngineError e = true.
Proof.
  assert ((Engine.read_wq Examples.reader_cls Examples.geometry "opt.tmp"
             (Examples.blank, Examples.empty_world)).1
          = inl (RuntimeError "In read_wq, opt.tmp doesn't exist")) as Hrun
    by (vm_compute; reflexivity).
  split; [exact Hrun|]. intros (e & He & Hcls). rewrite Hrun in He.
  by simplify_eq.
Qed.

Lemma read_wq_contract_witness :
  Engine.read_wq Examples.reader_cls Examples.geometry "opt.tmp"
    (Examples.blank, Examples.empty_world)
  = (inl (RuntimeError ("In read_wq, " +:+ "opt.tmp" +:+ " doesn't exist")),
     (Examples.blank, Examples.empty_world))
  ∧ isinstance_EngineError
      (RuntimeError ("In read_wq, " +:+ "opt.tmp" +:+ " doesn't exist")) = false.
Proof.
  apply (read_wq_contract Examples.reader_cls Examples.geometry "opt.tmp"
           ∅ tt Examples.empty_world).
  - reflexivity.
  - vm_compute. reflexivity.
Defined.

(** Two submissions of one geometry to a [QChem] engine, nothing collected
    in between: the queue holds two tasks. *)
Lemma resubmission_queues_second_job :
  let run1 := Engine.calc_wq Examples.qchem_cls Examples.geometry "opt.tmp" false
                (Examples.qchem, Examples.empty_world) in
  let run2 := Engine.calc_wq Examples.qchem_cls Examples.geometry "opt.tmp" false run1.2 in
  run1.1 = inr tt ∧ wq run1.2.2 = [Examples.qchem_job]
  ∧ run2.1 = inr tt ∧ wq run2.2.2 = [Examples.qchem_job; Examples.qchem_job]
  ∧ run2.2 ≠ run1.2.
Proof.
  cbn zeta. repeat split; try (vm_compute; reflexivity).
  intros Heq. apply (f_equal (λ s, length (wq s.2))) in Heq.
  vm_compute in Heq. discriminate.
Qed.

Lemma calc_wq_twice_submits_twice_witness :
  Engine.calc_wq (counting Examples.qchem_cls) Examples.geometry "opt.tmp" false
    (mkEngine (Some ∅) (fields Examples.qchem, mkCalls 0 0), Examples.empty_world)
  = (inr tt, (mkEngine (Some ∅) (Examples.qchem_submitted, mkCalls 0 1),
              Examples.world_submitted 1))
  ∧ Engine.calc_wq (counting Examples.qchem_cls) Examples.geometry "opt.tmp" false
      (mkEngine (Some ∅) (Examples.qchem_submitted, mkCalls 0 1),
       Examples.world_submitted 1)
    = (inr tt, (mkEngine (Some ∅) (Examples.qchem_submitted, mkCalls 0 2),
                Examples.world_submitted 2)).
Proof.
  apply (calc_wq_twice_submits_twice Examples.qchem_cls Examples.geometry "opt.tmp"
           ∅ (fields Examples.qchem) 0 0 Examples.empty_world
           Examples.qchem_submitted (Examples.world_submitted 1)
           Examples.qchem_submitted (Examples.world_submitted 2)).
  - reflexivity.
  - vm_compute. reflexivity.
  - vm_compute. reflexivity.
Defined.

(** The composite over two [Blank] engines, evaluated once through [calc]:
    its own [stored_calcs] holds the objective under the fingerprint, and the
    cache of each sub-engine holds that engine's result. *)
Lemma composite_holds_cache_entry :
  let run := Engine.calc Examples.ci_cls Examples.geometry "opt.tmp" false
               (Examples.ci, Examples.empty_world) in
  run.1 = inr Examples.ci_result
  ∧ stored_calcs run.2.1
    = Some {[hash_tostring Examples.geometry
             := mkEntry Examples.geometry Examples.ci_result]}
  ∧ ConicalIntersection.engine1 (fields run.2.1) = Examples.blank_cached
  ∧ ConicalIntersection.engine2 (fields run.2.1) = Examples.blank_cached.
Proof. cbn zeta. repeat split; vm_compute; reflexivity. Qed.

Lemma composite_calc_stores_objective_witness :
  Engine.calc Examples.ci_cls Examples.geometry "opt.tmp" false
    (Examples.ci, Examples.empty_world)
  = (inr Examples.ci_result,
     (mkEngine
        (Some (<[hash_tostring Examples.geometry
                 := mkEntry Examples.geometry Examples.ci_result]> ∅))
        Examples.ci_fields_evaluated,
      Examples.ci_world_evaluated)).
Proof.
  apply (composite_calc_stores_objective Examples.blank_calc Examples.blank_calc
           Examples.geometry "opt.tmp" ∅ (fields Examples.ci)
           Examples.empty_world Examples.tmp_world Examples.ci_result
           Examples.ci_fields_evaluated Examples.ci_world_evaluated).
  - reflexivity.
  - vm_compute. reflexivity.
  - vm_compute. reflexivity.
Defined.

Lemma sub_engine_error_is_wrapped_witness :
  ConicalIntersection.calc_new Examples.qchem_calc Examples.blank_calc
    Examples.geometry "opt.tmp"
    (ConicalIntersection.mkFields Examples.qchem Examples.blank (Q2Qc 3.5) (Q2Qc 0.02),
     Examples.empty_world)
  = (inl (Engine_exn ConicalIntersectionEngineError ""),
     (ConicalIntersection.mkFields Examples.qchem Examples.blank (Q2Qc 3.5) (Q2Qc 0.02),
      mkWorld {["opt.tmp/state_1"]} [])).
Proof.
  apply (proj1 (sub_engine_error_is_wrapped Examples.qchem_calc Examples.blank_calc
                  Examples.geometry "opt.tmp" Examples.qchem Examples.blank
                  (Q2Qc 3.5) (Q2Qc 0.02) Examples.empty_world
                  (Engine_exn QChemEngineError "") eq_refl)
           (mkWorld {["opt.tmp/state_1"]} [])).
  - vm_compute. reflexivity.
  - vm_compute. reflexivity.
Defined.

Lemma swapping_roles_keeps_objective_witness :
  (ConicalIntersection.calc_new (Examples.stub Examples.result_1)
     (Examples.stub Examples.result_2) Examples.geometry "opt.tmp"
     (ConicalIntersection.mkFields tt tt (Q2Qc 3.5) (Q2Qc 0.02), Examples.empty_world)).1
  = (ConicalIntersection.calc_new (Examples.stub Examples.result_2)
       (Examples.stub Examples.result_1) Examples.geometry "opt.tmp"
       (ConicalIntersection.mkFields tt tt (Q2Qc 3.5) (Q2Qc 0.02), Examples.empty_world)).1
  ∧ (ConicalIntersection.calc_new (Examples.stub Examples.result_1)
       (Examples.stub Examples.result_2) Examples.geometry "opt.tmp"
       (ConicalIntersection.mkFields tt tt (Q2Qc 3.5) (Q2Qc 0.02), Examples.empty_world)).2.2
    = (ConicalIntersection.calc_new (Examples.stub Examples.result_2)
         (Examples.stub Examples.result_1) Examples.geometry "opt.tmp"
         (ConicalIntersection.mkFields tt tt (Q2Qc 3.5) (Q2Qc 0.02), Examples.empty_world)).2.2.
Proof.
  apply (swapping_roles_keeps_objective (Examples.stub Examples.result_1)
           (Examples.stub Examples.result_2) Examples.result_1 Examples.result_2).
  - intros c d s. reflexivity.
  - intros c d s. reflexivity.
Defined.

Lemma worked_example_witness :
  ∃ l r,
    ConicalIntersection.calc_new_objective (Q2Qc 3.5) (Q2Qc 0.02)
      (mkResult (Q2Qc (-1)) (gradient Examples.result_1) None)
      (mkResult (Q2Qc (-1.0005)) (gradient Examples.result_2) None)
    = inr (l, r)
    ∧ ConicalIntersection.EDif l = Q2Qc 0.0005
    ∧ ConicalIntersection.Penalty l
      = (Q2Qc 0.0005 ^ 2 / (Q2Qc 0.0005 + Q2Qc 0.02))%Qc
    ∧ (Q2Qc 1.21945e-5 < ConicalIntersection.Penalty l < Q2Qc 1.21955e-5)%Qc
    ∧ energy r = (Q2Qc (-1.00025) + Q2Qc 3.5 * ConicalIntersection.Penalty l)%Qc
    ∧ (Q2Qc (-1.0002074) < energy r < Q2Qc (-1.0002072))%Qc.
Proof.
  apply (worked_example (gradient Examples.result_1) (gradient Examples.result_2)).
  reflexivity.
Defined.

End Runs.

(** * More properties *)


(** ** More on the cache: what a user of [Engine] can rely on *)

Section CacheLaws.
Context `{Hash} `{Platform W} {F : Type}.
Implicit Types (cls : EngineClass F W) (sc : gmap Z CacheEntry).

(** X1.  The cache is keyed by the hash alone.  The coordinates kept in an entry
    are never compared: a second geometry with the same hash is served the
    result of the first, and its own [calc_new] never runs. *)
Theorem colliding_fingerprints_share_entry
    cls coords1 coords2 dirname1 dirname2 readfiles sc f n m w w0 r f' w' :
  hash_tostring coords2 = hash_tostring coords1 →
  sc !! hash_tostring coords1 = None →
  makedirs_if_missing dirname1 w = inr w0 →
  calc_new cls coords1 dirname1 (f, w0) = (inr r, (f', w')) →
  ∃ σ1,
    Engine.calc (counting cls) coords1 dirname1 false
      (mkEngine (Some sc) (f, mkCalls n m), w) = (inr r, σ1)
    ∧ Engine.calc (counting cls) coords2 dirname2 readfiles σ1 = (inr r, σ1)
    ∧ n_calc_new (fields σ1.1).2 = S n
    ∧ (entry_coords <$> (default ∅ (stored_calcs σ1.1) !! hash_tostring coords2))
      = Some coords1.
Proof.
  intros Hcoll Hmiss Hdir Hnew.
  exists (mkEngine (Some (<[hash_tostring coords1 := mkEntry coords1 r]> sc))
                   (f', mkCalls (S n) m), w').
  split; [|split; [|split]].
  - rewrite calc_miss by done. rewrite Hdir. cbn [calc_new counting counted].
    by rewrite Hnew.
  - rewrite (calc_hit _ _ _ _ _ _ _ (mkEntry coords1 r)); [done|].
    rewrite Hcoll. apply lookup_insert_eq.
  - done.
  - cbn. by rewrite Hcoll, lookup_insert_eq.
Qed.

(** X2.  No method of the base class removes or replaces a cache entry: whatever
    [calc], [calc_wq] and [read_wq] do and however they end, the cache
    afterwards extends the cache before. *)
Theorem cache_only_grows cls coords dirname readfiles sc f w :
  (∃ sc', stored_calcs (Engine.calc cls coords dirname readfiles
                          (mkEngine (Some sc) f, w)).2.1 = Some sc' ∧ sc ⊆ sc')
  ∧ stored_calcs (Engine.calc_wq cls coords dirname readfiles
                    (mkEngine (Some sc) f, w)).2.1 = Some sc
  ∧ (∃ sc', stored_calcs (Engine.read_wq cls coords dirname
                            (mkEngine (Some sc) f, w)).2.1 = Some sc' ∧ sc ⊆ sc').
Proof.
  split; [|split]; unfold_methods; simpl.
  - destruct (sc !! hash_tostring coords) eqn:Hsc; simpl; [by exists sc|].
    assert (∀ w1,
      ∃ sc', stored_calcs
        (match makedirs_if_missing dirname w1 with
         | inl e => (inl e, (mkEngine (Some sc) f, w1))
         | inr w0 =>
             match calc_new cls coords dirname (f, w0) with
             | (inr r, (f', w')) =>
                 (inr r, (mkEngine (Some (<[hash_tostring coords := mkEntry coords r]> sc)) f', w'))
             | (inl e, (f', w')) => (inl e, (mkEngine (Some sc) f', w'))
             end
         end : (exn + Result) * (Engine F * W)).2.1 = Some sc' ∧ sc ⊆ sc') as Hnew.
    { intros w1. destruct (makedirs_if_missing dirname w1) as [e|w0]; [by exists sc|].
      destruct (calc_new cls coords dirname (f, w0)) as [[e|r] [f' w']];
        [by exists sc|].
      eexists; split; [done|]. by apply insert_subseteq. }
    specialize (Hnew w).
    destruct (readfiles && os_path_exists dirname w); simpl.
    + destruct (read_result cls) as [rr|]; simpl.
      * destruct (rr dirname (f, w)) as [e|r]; simpl.
        -- destruct (makedirs_if_missing dirname w) as [e'|w0]; simpl; [done|].
           by destruct (calc_new cls coords dirname (f, w0)) as [[e'|r] [f' w']].
        -- eexists; split; [done|]. by apply insert_subseteq.
      * destruct (makedirs_if_missing dirname w) as [e'|w0]; simpl; [done|].
        by destruct (calc_new cls coords dirname (f, w0)) as [[e'|r] [f' w']].
    + destruct (makedirs_if_missing dirname w) as [e'|w0]; simpl; [done|].
      by destruct (calc_new cls coords dirname (f, w0)) as [[e'|r] [f' w']].
  - destruct (sc !! hash_tostring coords); simpl; [done|].
    destruct (readfiles && os_path_exists dirname w); simpl.
    + destruct (read_result cls) as [rr|]; simpl.
      * destruct (rr dirname (f, w)); simpl; [|done].
        by destruct (calc_wq_new cls coords dirname (f, w)) as [? [? ?]].
      * by destruct (calc_wq_new cls coords dirname (f, w)) as [? [? ?]].
    + by destruct (calc_wq_new cls coords dirname (f, w)) as [? [? ?]].
  - destruct (sc !! hash_tostring coords) eqn:Hsc; simpl; [by exists sc|].
    destruct (os_path_exists dirname w); simpl; [|by exists sc].
    destruct (read_result cls) as [rr|]; simpl; [|by exists sc].
    destruct (rr dirname (f, w)); simpl; [by exists sc|].
    eexists; split; [done|]. by apply insert_subseteq.
Qed.

(** X3.  A failure is not remembered.  When [calc_new] raises, [calc] raises the
    same exception and stores nothing, so the next [calc] for the same
    geometry runs [calc_new] again. *)
Theorem failed_calc_is_retried
    cls coords dirname sc f n m w w0 e f1 w1 w2 e' f2 w3 :
  sc !! hash_tostring coords = None →
  makedirs_if_missing dirname w = inr w0 →
  calc_new cls coords dirname (f, w0) = (inl e, (f1, w1)) →
  makedirs_if_missing dirname w1 = inr w2 →
  calc_new cls coords dirname (f1, w2) = (inl e', (f2, w3)) →
  Engine.calc (counting cls) coords dirname false
    (mkEngine (Some sc) (f, mkCalls n m), w)
  = (inl e, (mkEngine (Some sc) (f1, mkCalls (S n) m), w1))
  ∧ Engine.calc (counting cls) coords dirname false
      (mkEngine (Some sc) (f1, mkCalls (S n) m), w1)
    = (inl e', (mkEngine (Some sc) (f2, mkCalls (S (S n)) m), w3)).
Proof.
  intros Hmiss Hdir1 Hnew1 Hdir2 Hnew2.
  rewrite !calc_miss by done. rewrite Hdir1, Hdir2.
  cbn [calc_new counting counted]. by rewrite Hnew1, Hnew2.
Qed.

(** X4.  Reading back instead of computing.  On a miss with [readfiles] set, an
    existing directory and a [read_result] that returns, [calc] returns what
    was read and stores it; [calc_new] does not run and neither the adapter
    nor the world changes. *)
Theorem calc_reads_instead_of_computing cls rr coords dirname sc f n m w r :
  sc !! hash_tostring coords = None →
  os_path_exists dirname w = true →
  read_result cls = Some rr →
  rr dirname (f, w) = inr r →
  Engine.calc (counting cls) coords dirname true
    (mkEngine (Some sc) (f, mkCalls n m), w)
  = (inr r,
     (mkEngine (Some (<[hash_tostring coords := mkEntry coords r]> sc))
        (f, mkCalls n m), w)).
Proof.
  intros Hmiss Hdir Hrr Hread. unfold_methods. simpl.
  rewrite Hmiss. simpl. rewrite Hdir. simpl. rewrite Hrr. simpl. by rewrite Hread.
Qed.

(** X5.  Submission asks for nothing when there is nothing to compute.  If the
    fingerprint is cached, or a result can be read from the directory,
    [calc_wq] submits nothing and changes nothing; the result that was read
    is dropped, not cached. *)
Theorem calc_wq_skips cls coords dirname readfiles sc f n m w :
  is_Some (sc !! hash_tostring coords)
  ∨ (∃ r, (Engine.try_read_result cls dirname readfiles
             (mkEngine (Some sc) f, w)).1 = inr (Some r)) →
  Engine.calc_wq (counting cls) coords dirname readfiles
    (mkEngine (Some sc) (f, mkCalls n m), w)
  = (inr tt, (mkEngine (Some sc) (f, mkCalls n m), w)).
Proof.
  intros [[entry Hhit]|[r Hread]]; unfold_methods; simpl in *.
  - by rewrite Hhit.
  - destruct (sc !! hash_tostring coords); simpl; [done|].
    destruct (readfiles && os_path_exists dirname w); simpl in *; [|done].
    destruct (read_result cls) as [rr|]; simpl in *; [|done].
    by destruct (rr dirname (f, w)).
Qed.

(** X6.  The round trip of the work queue.  Submit a geometry that is not
    cached; let the facility change the world so that the directory exists
    and [read_result] returns [r]; then [read_wq] returns [r] and caches it.
    From then on [calc] and [read_wq] for that geometry return [r] from the
    cache, in any directory and any world, and [calc_new] never ran. *)
Theorem submit_collect_round_trip
    cls rr coords dirname sc f n m w f1 w1 w2 r :
  sc !! hash_tostring coords = None →
  calc_wq_new cls coords dirname (f, w) = (inr tt, (f1, w1)) →
  os_path_exists dirname w2 = true →
  read_result cls = Some rr →
  rr dirname (f1, w2) = inr r →
  let o1 := mkEngine (Some sc) (f1, mkCalls n (S m)) in
  let o2 := mkEngine (Some (<[hash_tostring coords := mkEntry coords r]> sc))
                     (f1, mkCalls n (S m)) in
  Engine.calc_wq (counting cls) coords dirname false
    (mkEngine (Some sc) (f, mkCalls n m), w) = (inr tt, (o1, w1))
  ∧ Engine.read_wq (counting cls) coords dirname (o1, w2) = (inr r, (o2, w2))
  ∧ ∀ dirname' readfiles w3,
      Engine.calc (counting cls) coords dirname' readfiles (o2, w3) = (inr r, (o2, w3))
      ∧ Engine.read_wq (counting cls) coords dirname' (o2, w3) = (inr r, (o2, w3)).
Proof.
  intros Hmiss Hsub Hdir Hrr Hread. cbn zeta. split; [|split].
  - rewrite calc_wq_miss by done. cbn [calc_wq_new counting counted].
    by rewrite Hsub.
  - unfold_methods. simpl. rewrite Hmiss. simpl. rewrite Hdir. simpl.
    rewrite Hrr. simpl. by rewrite Hread.
  - intros dirname' readfiles w3. split.
    + rewrite (calc_hit _ _ _ _ _ _ _ (mkEntry coords r)); [done|].
      apply lookup_insert_eq.
    + unfold_methods. simpl. by rewrite lookup_insert_eq.
Qed.

(** X7.  [clearCalcs] forgets everything: a geometry computed before it is
    computed again after it. *)
Theorem clearCalcs_forces_recomputation
    cls coords dirname sc f n m w w0 r f1 w1 w2 r' f2 w3 :
  sc !! hash_tostring coords = None →
  makedirs_if_missing dirname w = inr w0 →
  calc_new cls coords dirname (f, w0) = (inr r, (f1, w1)) →
  makedirs_if_missing dirname w1 = inr w2 →
  calc_new cls coords dirname (f1, w2) = (inr r', (f2, w3)) →
  ((_ ← Engine.calc (counting cls) coords dirname false;
    _ ← Engine.clearCalcs;
    Engine.calc (counting cls) coords dirname false)
     : M (Engine (F * Calls) * W) Result)
    (mkEngine (Some sc) (f, mkCalls n m), w)
  = (inr r',
     (mkEngine (Some {[hash_tostring coords := mkEntry coords r']})
        (f2, mkCalls (S (S n)) m), w3)).
Proof.
  intros Hmiss Hdir1 Hnew1 Hdir2 Hnew2.
  unfold mbind at 1, M_bind at 1. rewrite calc_miss by done. rewrite Hdir1.
  cbn [calc_new counting counted]. rewrite Hnew1.
  unfold mbind at 1, M_bind at 1. unfold Engine.clearCalcs at 1.
  cbn [fields]. rewrite calc_miss by apply lookup_empty. rewrite Hdir2.
  cbn [calc_new counting counted]. by rewrite Hnew2.
Qed.

(** X8.  A class without [read_result] cannot collect: [read_wq] returns a
    result exactly when the fingerprint is already cached. *)
Theorem read_wq_needs_read_result cls coords dirname sc f w :
  read_result cls = None →
  (∃ r σ', Engine.read_wq cls coords dirname (mkEngine (Some sc) f, w) = (inr r, σ'))
  ↔ is_Some (sc !! hash_tostring coords).
Proof.
  intros Hnone. unfold_methods. simpl. split.
  - intros (r & σ' & Hrun).
    destruct (sc !! hash_tostring coords); [done|]. simpl in Hrun.
    destruct (os_path_exists dirname w); simpl in Hrun; [|done].
    by rewrite Hnone in Hrun.
  - intros [entry Hhit]. rewrite Hhit. by do 2 eexists.
Qed.

End CacheLaws.

Section QCEngineInherited.
Context `{Hash} `{Platform W}.
Variable qcengine_compute : QCEngineAPI.Schema → string → W → QCEngineAPI.Ret * W.

(** X9.  [QCEngineAPI.__init__] does not run [Engine.__init__].  On the object
    it builds, the methods inherited from [Engine] that look at the cache
    ([calc_wq], [read_wq]) raise [AttributeError] for every geometry and
    change nothing; once [clearCalcs] has created the attribute, [calc_wq]
    ends in the [NotImplementedError] of the base class instead. *)
Theorem qcengine_has_no_cache_attribute schema program coords dirname readfiles (w : W) :
  let o := QCEngineAPI.__init__ schema program in
  let cls := QCEngineAPI.cls qcengine_compute in
  Engine.calc_wq cls coords dirname readfiles (o, w)
    = (inl (AttributeError "stored_calcs"), (o, w))
  ∧ Engine.read_wq cls coords dirname (o, w)
    = (inl (AttributeError "stored_calcs"), (o, w))
  ∧ ((_ ← Engine.clearCalcs; Engine.calc_wq cls coords dirname readfiles)
       : M (Engine QCEngineAPI.Fields * W) unit) (o, w)
    = (inl (NotImplementedError "Work Queue is not implemented for this class"),
       (mkEngine (Some ∅) (fields o), w)).
Proof.
  cbn zeta. split; [done|]. split; [done|].
  unfold_methods. unfold Engine.clearCalcs. simpl.
  rewrite lookup_empty. simpl.
  by destruct (readfiles && os_path_exists dirname w).
Qed.

End QCEngineInherited.

Ltac exn_cbn :=
  cbn [mbind exn_bind fmap exn_fmap mret exn_ret fst snd].

Ltac choose_states :=
  cbn beta iota zeta;
  rewrite ?(bool_decide_eq_true_2 (1%Z = 1%Z)) by reflexivity;
  rewrite ?(bool_decide_eq_false_2 (2%Z = 1%Z)) by discriminate.

Section ObjectiveLaws.
Local Open Scope Qc_scope.

Lemma broadcast_same_length op (a b : list Qc) :
  length a = length b → np.broadcast op a b = inr (zip_with op a b).
Proof. intros Hlen. unfold np.broadcast. by rewrite bool_decide_eq_true_2. Qed.

Lemma Qcpower_2_nonzero (x : Qc) : x ≠ 0 → x ^ 2 ≠ 0.
Proof.
  intros Hx Hsq. cbn [Qcpower] in Hsq. rewrite Qcmult_1_r in Hsq.
  by destruct (Qcmult_integral _ _ Hsq).
Qed.

(** The value of the objective when nothing raises. *)
Lemma objective_core (sigma alpha EI EJ : Qc) (GI GJ : list Qc) (I J : Z) :
  length GI = length GJ → EI - EJ + alpha ≠ 0 →
  (GSum ← np.add GI GJ;
   GDif ← np.sub GI GJ;
   _ ← np.dot GI GJ;
   Penalty ← truediv ((EI - EJ) ^ 2) (EI - EJ + alpha);
   coef ← truediv (sigma * ((EI - EJ) ^ 2 + 2 * alpha * (EI - EJ)))
                  ((EI - EJ + alpha) ^ 2);
   ObjGrad ← np.add (np.scale (Q2Qc (1 # 2)) GSum) (np.scale coef GDif);
   mret (ConicalIntersection.mkLocals I J (Q2Qc (1 # 2) * (EI + EJ)) (EI - EJ)
           Penalty (Q2Qc (1 # 2) * (EI + EJ) + sigma * Penalty),
         mkResult (Q2Qc (1 # 2) * (EI + EJ) + sigma * Penalty) ObjGrad None))
  = inr (ConicalIntersection.mkLocals I J (Q2Qc (1 # 2) * (EI + EJ)) (EI - EJ)
           ((EI - EJ) ^ 2 / (EI - EJ + alpha))
           (Q2Qc (1 # 2) * (EI + EJ) + sigma * ((EI - EJ) ^ 2 / (EI - EJ + alpha))),
         mkResult
           (Q2Qc (1 # 2) * (EI + EJ) + sigma * ((EI - EJ) ^ 2 / (EI - EJ + alpha)))
           (zip_with Qcplus
              (np.scale (Q2Qc (1 # 2)) (zip_with Qcplus GI GJ))
              (np.scale (sigma * ((EI - EJ) ^ 2 + 2 * alpha * (EI - EJ))
                         / (EI - EJ + alpha) ^ 2)
                 (zip_with Qcminus GI GJ)))
           None).
Proof.
  intros Hlen Hden.
  unfold np.add, np.sub, np.dot. rewrite !broadcast_same_length by done.
  rewrite bool_decide_eq_true_2 by done. exn_cbn.
  unfold truediv.
  rewrite (bool_decide_eq_false_2 (EI - EJ + alpha = 0)) by done.
  rewrite (bool_decide_eq_false_2 ((EI - EJ + alpha) ^ 2 = 0))
    by by apply Qcpower_2_nonzero.
  exn_cbn.
  rewrite broadcast_same_length
    by (unfold np.scale; rewrite !length_fmap, !length_zip_with; lia).
  reflexivity.
Qed.

Lemma objective_upper_first (sigma alpha : Qc) (r1 r2 : Result) :
  ¬ energy r1 < energy r2 →
  ConicalIntersection.calc_new_objective sigma alpha r1 r2
  = (GSum ← np.add (gradient r1) (gradient r2);
     GDif ← np.sub (gradient r1) (gradient r2);
     _ ← np.dot (gradient r1) (gradient r2);
     Penalty ← truediv ((energy r1 - energy r2) ^ 2) (energy r1 - energy r2 + alpha);
     coef ← truediv (sigma * ((energy r1 - energy r2) ^ 2
                              + 2 * alpha * (energy r1 - energy r2)))
                    ((energy r1 - energy r2 + alpha) ^ 2);
     ObjGrad ← np.add (np.scale (Q2Qc (1 # 2)) GSum) (np.scale coef GDif);
     mret (ConicalIntersection.mkLocals 1 2
             (Q2Qc (1 # 2) * (energy r1 + energy r2)) (energy r1 - energy r2)
             Penalty (Q2Qc (1 # 2) * (energy r1 + energy r2) + sigma * Penalty),
           mkResult (Q2Qc (1 # 2) * (energy r1 + energy r2) + sigma * Penalty)
             ObjGrad None)).
Proof.
  intros Hlt. unfold ConicalIntersection.calc_new_objective. choose_states.
  rewrite (bool_decide_eq_false_2 (energy r1 < energy r2)) by done.
  choose_states. reflexivity.
Qed.

Lemma objective_upper_second (sigma alpha : Qc) (r1 r2 : Result) :
  energy r1 < energy r2 →
  ConicalIntersection.calc_new_objective sigma alpha r1 r2
  = (GSum ← np.add (gradient r2) (gradient r1);
     GDif ← np.sub (gradient r2) (gradient r1);
     _ ← np.dot (gradient r2) (gradient r1);
     Penalty ← truediv ((energy r2 - energy r1) ^ 2) (energy r2 - energy r1 + alpha);
     coef ← truediv (sigma * ((energy r2 - energy r1) ^ 2
                              + 2 * alpha * (energy r2 - energy r1)))
                    ((energy r2 - energy r1 + alpha) ^ 2);
     ObjGrad ← np.add (np.scale (Q2Qc (1 # 2)) GSum) (np.scale coef GDif);
     mret (ConicalIntersection.mkLocals 2 1
             (Q2Qc (1 # 2) * (energy r2 + energy r1)) (energy r2 - energy r1)
             Penalty (Q2Qc (1 # 2) * (energy r2 + energy r1) + sigma * Penalty),
           mkResult (Q2Qc (1 # 2) * (energy r2 + energy r1) + sigma * Penalty)
             ObjGrad None)).
Proof.
  intros Hlt. unfold ConicalIntersection.calc_new_objective. choose_states.
  rewrite (bool_decide_eq_true_2 (energy r1 < energy r2)) by done.
  choose_states. reflexivity.
Qed.

Lemma half_inv : Q2Qc (1 # 2) = / 2.
Proof. apply Qc_is_canon. vm_compute. reflexivity. Qed.

Lemma two_nonzero : (2 : Qc) ≠ 0.
Proof. intros Heq. apply (f_equal (λ q : Qc, Qnum q)) in Heq. vm_compute in Heq. discriminate. Qed.

Lemma Q_penalty_range (d a : Q) :
  (0 <= d)%Q → (0 < a)%Q →
  (0 <= d * d / (d + a))%Q ∧ (d * d / (d + a) <= d)%Q.
Proof.
  intros Hd Ha. split.
  - apply Qle_shift_div_l; [lra|]. nra.
  - apply Qle_shift_div_r; [lra|]. nra.
Qed.

Lemma Qc_penalty_range (d a : Qc) :
  0 ≤ d → 0 < a → 0 ≤ d ^ 2 / (d + a) ∧ d ^ 2 / (d + a) ≤ d.
Proof.
  intros Hd Ha. cbn [Qcpower]. rewrite !Qcmult_1_r.
  unfold Qcle, Qclt, Qcdiv, Qcinv, Qcmult, Qcplus, Q2Qc in *. cbn [this] in *.
  rewrite !Qred_correct. by apply Q_penalty_range.
Qed.

Lemma Q_penalty_mono (d1 d2 a : Q) :
  (0 <= d1)%Q → (d1 <= d2)%Q → (0 < a)%Q →
  (d1 * d1 / (d1 + a) <= d2 * d2 / (d2 + a))%Q.
Proof.
  intros H1 H2 Ha.
  apply Qle_shift_div_r; [lra|].
  assert (d2 * d2 / (d2 + a) * (d1 + a) == (d2 * d2 * (d1 + a)) / (d2 + a))%Q
    as -> by (field; lra).
  apply Qle_shift_div_l; [lra|].
  assert (0 <= d1 * d2 * (d2 - d1))%Q as HA by (repeat apply Qmult_le_0_compat; lra).
  assert (0 <= a * (d2 - d1) * (d2 + d1))%Q as HB by (repeat apply Qmult_le_0_compat; lra).
  nra.
Qed.

Lemma Qc_penalty_mono (d1 d2 a : Qc) :
  0 ≤ d1 → d1 ≤ d2 → 0 < a → d1 ^ 2 / (d1 + a) ≤ d2 ^ 2 / (d2 + a).
Proof.
  intros H1 H2 Ha. cbn [Qcpower]. rewrite !Qcmult_1_r.
  unfold Qcle, Qclt, Qcdiv, Qcinv, Qcmult, Qcplus, Q2Qc in *. cbn [this] in *.
  rewrite !Qred_correct. apply Q_penalty_mono; done.
Qed.

Lemma energy_gap_nonneg (r1 r2 : Result) : 0 ≤ energy_gap r1 r2.
Proof.
  unfold energy_gap. case_bool_decide as Hlt.
  - apply Qclt_le_weak in Hlt. by apply Qcle_minus_iff in Hlt.
  - apply Qcnot_lt_le in Hlt. by apply Qcle_minus_iff in Hlt.
Qed.

Lemma gap_plus_alpha_nonzero (alpha : Qc) (r1 r2 : Result) :
  0 < alpha → energy_gap r1 r2 + alpha ≠ 0.
Proof.
  intros Ha Heq. pose proof (energy_gap_nonneg r1 r2) as Hd.
  pose proof (Qcplus_nonneg_pos _ _ Hd Ha) as Hpos.
  rewrite Heq in Hpos. by apply Qclt_not_eq in Hpos.
Qed.

(** The objective as one value: the gap, the mean, the penalty and the
    energy that [calc_new_objective] returns when nothing raises. *)
Lemma objective_returns (sigma alpha : Qc) (r1 r2 : Result) :
  length (gradient r1) = length (gradient r2) →
  energy_gap r1 r2 + alpha ≠ 0 →
  ∃ l r,
    ConicalIntersection.calc_new_objective sigma alpha r1 r2 = inr (l, r)
    ∧ ConicalIntersection.EDif l = energy_gap r1 r2
    ∧ 2 * ConicalIntersection.EAvg l = energy r1 + energy r2
    ∧ ConicalIntersection.Penalty l
      = energy_gap r1 r2 ^ 2 / (energy_gap r1 r2 + alpha)
    ∧ ConicalIntersection.Obj l = energy r
    ∧ energy r = ConicalIntersection.EAvg l + sigma * ConicalIntersection.Penalty l
    ∧ length (gradient r) = length (gradient r1).
Proof.
  intros Hlen Hden. unfold energy_gap in *.
  destruct (decide (energy r1 < energy r2)) as [Hlt|Hlt].
  - rewrite (bool_decide_eq_true_2 (energy r1 < energy r2)) in * by done.
    rewrite objective_upper_second by done.
    rewrite objective_core by done.
    do 2 eexists. split; [reflexivity|].
    cbn [ConicalIntersection.EDif ConicalIntersection.EAvg ConicalIntersection.Penalty
         ConicalIntersection.Obj energy gradient].
    repeat split.
    + rewrite half_inv. field. apply two_nonzero.
    + unfold np.scale. rewrite !length_zip_with, !length_fmap, !length_zip_with. lia.
  - rewrite (bool_decide_eq_false_2 (energy r1 < energy r2)) in * by done.
    rewrite objective_upper_first by done.
    rewrite objective_core by done.
    do 2 eexists. split; [reflexivity|].
    cbn [ConicalIntersection.EDif ConicalIntersection.EAvg ConicalIntersection.Penalty
         ConicalIntersection.Obj energy gradient].
    repeat split.
    + rewrite half_inv. field. apply two_nonzero.
    + unfold np.scale. rewrite !length_zip_with, !length_fmap, !length_zip_with. lia.
Qed.

(** X11.  For a positive [alpha] and gradients of one length the objective is
    defined, and its parts are bounded: the gap is not negative, the penalty
    lies between zero and the gap, and for a [sigma] that is not negative the
    energy returned lies between the mean of the two energies and the mean
    plus [sigma] times the gap. *)
Theorem objective_bounds (sigma alpha : Qc) (r1 r2 : Result) :
  0 < alpha →
  length (gradient r1) = length (gradient r2) →
  ∃ l r,
    ConicalIntersection.calc_new_objective sigma alpha r1 r2 = inr (l, r)
    ∧ ConicalIntersection.EDif l = energy_gap r1 r2
    ∧ 0 ≤ ConicalIntersection.EDif l
    ∧ 0 ≤ ConicalIntersection.Penalty l
    ∧ ConicalIntersection.Penalty l ≤ ConicalIntersection.EDif l
    ∧ 2 * ConicalIntersection.EAvg l = energy r1 + energy r2
    ∧ (0 ≤ sigma →
       ConicalIntersection.EAvg l ≤ energy r
       ∧ energy r ≤ ConicalIntersection.EAvg l + sigma * ConicalIntersection.EDif l)
    ∧ length (gradient r) = length (gradient r1).
Proof.
  intros Ha Hlen.
  destruct (objective_returns sigma alpha r1 r2 Hlen (gap_plus_alpha_nonzero _ _ _ Ha))
    as (l & r & Hrun & Hdif & Havg & Hpen & _ & Hobj & Hglen).
  pose proof (energy_gap_nonneg r1 r2) as Hd.
  destruct (Qc_penalty_range _ _ Hd Ha) as [Hp0 Hp1].
  exists l, r. rewrite Hdif, Hpen, Hobj, Hpen.
  repeat split; try done.
  - rewrite <- (Qcplus_0_r (ConicalIntersection.EAvg l)) at 1.
    apply Qcplus_le_mono_l. by apply Qcmult_nonneg_nonneg.
  - apply Qcplus_le_mono_l. by apply Qcmult_le_mono_nonneg_l.
Qed.

Lemma mean_of_gradients (h : Qc) (G1 G2 : list Qc) :
  zip_with Qcplus (np.scale h (zip_with Qcplus G1 G2))
                  (np.scale 0 (zip_with Qcminus G1 G2))
  = zip_with (λ a b, h * (a + b)) G1 G2.
Proof.
  unfold np.scale. revert G2.
  induction G1 as [|a G1 IH]; intros [|b G2]; try reflexivity.
  cbn [zip_with]. rewrite !fmap_cons. cbn [zip_with].
  rewrite IH. f_equal. ring.
Qed.

(** X12.  At a tie, where the two energies are equal, the penalty and its
    coefficient vanish: for any [alpha] other than zero the objective is the
    common energy, its gradient is the mean of the two gradients, entry by
    entry, and [sigma] plays no part. *)
Theorem objective_at_a_tie (sigma alpha : Qc) (r1 r2 : Result) :
  energy r1 = energy r2 →
  alpha ≠ 0 →
  length (gradient r1) = length (gradient r2) →
  ConicalIntersection.calc_new_objective sigma alpha r1 r2
  = inr (ConicalIntersection.mkLocals 1 2 (energy r1) 0 0 (energy r1),
         mkResult (energy r1)
           (zip_with (λ a b, Q2Qc (1 # 2) * (a + b)) (gradient r1) (gradient r2))
           None).
Proof.
  intros Htie Ha Hlen.
  rewrite objective_upper_first by (rewrite Htie; apply Qcle_not_lt, Qcle_refl).
  rewrite <- Htie.
  assert (energy r1 - energy r1 = 0) as Hzero by ring.
  rewrite objective_core by (try done; by rewrite Hzero, Qcplus_0_l).
  rewrite !Hzero.
  assert (Q2Qc (1 # 2) * (energy r1 + energy r1) = energy r1) as ->
    by (rewrite half_inv; field; apply two_nonzero).
  assert (0 ^ 2 / (0 + alpha) = 0) as ->
    by (cbn [Qcpower]; unfold Qcdiv; ring).
  assert (sigma * (0 ^ 2 + 2 * alpha * 0) / (0 + alpha) ^ 2 = 0) as ->
    by (cbn [Qcpower]; unfold Qcdiv; ring).
  rewrite mean_of_gradients.
  assert (energy r1 + sigma * 0 = energy r1) as -> by ring.
  reflexivity.
Qed.

(** X13.  The penalty grows with the gap.  For a positive [alpha], of two pairs
    of results the one with the larger gap has the larger penalty; when the
    two pairs have the same mean energy and [sigma] is not negative, it has
    the larger objective as well. *)
Theorem penalty_grows_with_gap (sigma alpha : Qc) (r1 r2 r1' r2' : Result) :
  0 < alpha →
  length (gradient r1) = length (gradient r2) →
  length (gradient r1') = length (gradient r2') →
  energy_gap r1 r2 ≤ energy_gap r1' r2' →
  ∃ l r l' r',
    ConicalIntersection.calc_new_objective sigma alpha r1 r2 = inr (l, r)
    ∧ ConicalIntersection.calc_new_objective sigma alpha r1' r2' = inr (l', r')
    ∧ ConicalIntersection.Penalty l ≤ ConicalIntersection.Penalty l'
    ∧ (0 ≤ sigma → energy r1 + energy r2 = energy r1' + energy r2' →
       energy r ≤ energy r').
Proof.
  intros Ha Hlen Hlen' Hgap.
  destruct (objective_returns sigma alpha r1 r2 Hlen (gap_plus_alpha_nonzero _ _ _ Ha))
    as (l & r & Hrun & _ & Havg & Hpen & _ & Hobj & _).
  destruct (objective_returns sigma alpha r1' r2' Hlen' (gap_plus_alpha_nonzero _ _ _ Ha))
    as (l' & r' & Hrun' & _ & Havg' & Hpen' & _ & Hobj' & _).
  assert (ConicalIntersection.Penalty l ≤ ConicalIntersection.Penalty l') as Hmono.
  { rewrite Hpen, Hpen'.
    apply Qc_penalty_mono; [apply energy_gap_nonneg|done..]. }
  exists l, r, l', r'. repeat split; try done.
  intros Hsigma Hmean. rewrite Hobj, Hobj'.
  assert (ConicalIntersection.EAvg l = ConicalIntersection.EAvg l') as ->.
  { assert (2 * ConicalIntersection.EAvg l = 2 * ConicalIntersection.EAvg l') as Heq
      by (by rewrite Havg, Havg').
    assert (ConicalIntersection.EAvg l = / 2 * (2 * ConicalIntersection.EAvg l)) as ->
      by (field; apply two_nonzero).
    rewrite Heq. field. apply two_nonzero. }
  apply Qcplus_le_mono_l. by apply Qcmult_le_mono_nonneg_l.
Qed.

(** X14.  The gradient returned is the slope of the energy returned.  Let both
    states be straight lines in one coordinate, [a1 t + b1] above
    [a2 t + b2] at [x] and at [x + h].  Then the objective at [x + h] is the
    objective at [x] plus [h] times the gradient returned at [x], up to a
    term in [h ^ 2] that is given in closed form. *)
Theorem objective_gradient_is_slope (sigma alpha a1 b1 a2 b2 x h : Qc) :
  0 < alpha →
  a2 * x + b2 ≤ a1 * x + b1 →
  a2 * (x + h) + b2 ≤ a1 * (x + h) + b1 →
  ∃ l r l' r' g,
    ConicalIntersection.calc_new_objective sigma alpha
      (mkResult (a1 * x + b1) [a1] None) (mkResult (a2 * x + b2) [a2] None)
    = inr (l, r)
    ∧ ConicalIntersection.calc_new_objective sigma alpha
        (mkResult (a1 * (x + h) + b1) [a1] None)
        (mkResult (a2 * (x + h) + b2) [a2] None)
      = inr (l', r')
    ∧ gradient r = [g]
    ∧ energy r' - energy r
      = h * g
        + h ^ 2 * (sigma * alpha ^ 2 * (a1 - a2) ^ 2
                   / ((ConicalIntersection.EDif l + alpha) ^ 2
                      * (ConicalIntersection.EDif l' + alpha))).
Proof.
  intros Ha Hx Hxh.
  assert (∀ t, a2 * t + b2 ≤ a1 * t + b1 → a1 * t + b1 - (a2 * t + b2) + alpha ≠ 0)
    as Hden.
  { intros t Ht Heq. apply Qcle_minus_iff in Ht.
    pose proof (Qcplus_nonneg_pos _ _ Ht Ha) as Hpos.
    unfold Qcminus in Heq. rewrite Heq in Hpos. by apply Qclt_not_eq in Hpos. }
  pose proof (Hden _ Hx) as Hd. pose proof (Hden _ Hxh) as Hd'.
  rewrite !objective_upper_first by (cbn [energy]; by apply Qcle_not_lt).
  cbn [energy gradient]. rewrite !objective_core by done.
  do 5 eexists. split; [reflexivity|]. split; [reflexivity|].
  cbn [gradient energy ConicalIntersection.EDif zip_with np.scale].
  unfold np.scale. rewrite !fmap_cons. cbn [zip_with fmap list_fmap].
  split; [reflexivity|].
  rewrite half_inv. cbn [Qcpower]. field.
  repeat split; done.
Qed.





End ObjectiveLaws.

(** ** More on the composite *)

Section CompositeLaws.
Context `{Platform W} {S1 S2 : Type}.
Variable calc1 : Coords → string → M (S1 * W) Result.
Variable calc2 : Coords → string → M (S2 * W) Result.

(** X15.  Only [EngineError] is translated.  An exception of a sub-engine that is
    no [EngineError] (a [RuntimeError], an [OSError] of the file system, a
    [NotImplementedError]) leaves [calc_new] as it is, with its own class
    and message; for state 1 this happens before state 2 is touched. *)
Theorem other_exceptions_pass_through coords dirname e1 e2 sigma alpha w e :
  isinstance_EngineError e = false →
  (∀ w1 e1' w1',
     makedirs_if_missing (ConicalIntersection.state_dnm dirname 1) w = inr w1 →
     calc1 coords (ConicalIntersection.state_dnm dirname 1) (e1, w1) = (inl e, (e1', w1')) →
     ConicalIntersection.calc_new calc1 calc2 coords dirname
       (ConicalIntersection.mkFields e1 e2 sigma alpha, w)
     = (inl e, (ConicalIntersection.mkFields e1' e2 sigma alpha, w1')))
  ∧ (∀ w1 r1 e1' w1' w2 e2' w2',
     makedirs_if_missing (ConicalIntersection.state_dnm dirname 1) w = inr w1 →
     calc1 coords (ConicalIntersection.state_dnm dirname 1) (e1, w1) = (inr r1, (e1', w1')) →
     makedirs_if_missing (ConicalIntersection.state_dnm dirname 2) w1' = inr w2 →
     calc2 coords (ConicalIntersection.state_dnm dirname 2) (e2, w2) = (inl e, (e2', w2')) →
     ConicalIntersection.calc_new calc1 calc2 coords dirname
       (ConicalIntersection.mkFields e1 e2 sigma alpha, w)
     = (inl e, (ConicalIntersection.mkFields e1' e2' sigma alpha, w2'))).
Proof.
  intros He. split.
  - intros w1 e1' w1' Hdir Hcalc.
    unfold ConicalIntersection.calc_new.
    unfold mbind at 1, M_bind at 1. rewrite spcalc_run, Hdir.
    unfold ConicalIntersection.engines_1_calc, zoom.
    cbn [ConicalIntersection.engine1 ConicalIntersection.engine2
         ConicalIntersection.sigma ConicalIntersection.alpha].
    by rewrite Hcalc, He.
  - intros w1 r1 e1' w1' w2 e2' w2' Hdir1 Hcalc1 Hdir2 Hcalc2.
    unfold ConicalIntersection.calc_new.
    unfold mbind at 1, M_bind at 1. rewrite spcalc_run, Hdir1.
    unfold ConicalIntersection.engines_1_calc at 1, zoom at 1.
    cbn [ConicalIntersection.engine1 ConicalIntersection.engine2
         ConicalIntersection.sigma ConicalIntersection.alpha].
    rewrite Hcalc1.
    unfold mbind at 1, M_bind at 1. rewrite spcalc_run, Hdir2.
    unfold ConicalIntersection.engines_2_calc, zoom.
    cbn [ConicalIntersection.engine1 ConicalIntersection.engine2
         ConicalIntersection.sigma ConicalIntersection.alpha].
    by rewrite Hcalc2, He.
Qed.

End CompositeLaws.

Section CompositeRetry.
Context `{Hash} `{Platform W} {F1 S2 : Type}.
Variable cls1 : EngineClass F1 W.
Variable calc2 : Coords → string → M (S2 * W) Result.

(** X16.  Evaluating again after state 2 failed.  Let state 1 be an engine with
    the cache of the base class.  A first evaluation in which state 1
    computes [r1] and state 2 raises an [EngineError] ends in
    [ConicalIntersectionEngineError], and the result of state 1 stays in the
    cache of that sub-engine.  In a second evaluation of the same geometry
    state 1 is served from there: when state 2 now returns [r2], the outcome
    is the objective of [r1] and [r2], and the [calc_new] of state 1 has run
    once over the two evaluations. *)
Theorem retry_reuses_state_1
    coords dirname sc1 f1 n m e2 sigma alpha w
    w1 w1a r1 f1' w1' w2 e e2' w2' w3 w4 r2 e2'' w4' :
  let calc1 c d := Engine.calc (counting cls1) c d false in
  let d1 := ConicalIntersection.state_dnm dirname 1 in
  let d2 := ConicalIntersection.state_dnm dirname 2 in
  let o1 := mkEngine (Some (<[hash_tostring coords := mkEntry coords r1]> sc1))
                     (f1', mkCalls (S n) m) in
  isinstance_EngineError e = true →
  sc1 !! hash_tostring coords = None →
  makedirs_if_missing d1 w = inr w1 →
  makedirs_if_missing d1 w1 = inr w1a →
  calc_new cls1 coords d1 (f1, w1a) = (inr r1, (f1', w1')) →
  makedirs_if_missing d2 w1' = inr w2 →
  calc2 coords d2 (e2, w2) = (inl e, (e2', w2')) →
  makedirs_if_missing d1 w2' = inr w3 →
  makedirs_if_missing d2 w3 = inr w4 →
  calc2 coords d2 (e2', w4) = (inr r2, (e2'', w4')) →
  ConicalIntersection.calc_new calc1 calc2 coords dirname
    (ConicalIntersection.mkFields (mkEngine (Some sc1) (f1, mkCalls n m)) e2 sigma alpha, w)
  = (inl (Engine_exn ConicalIntersectionEngineError ""),
     (ConicalIntersection.mkFields o1 e2' sigma alpha, w2'))
  ∧ ConicalIntersection.calc_new calc1 calc2 coords dirname
      (ConicalIntersection.mkFields o1 e2' sigma alpha, w2')
    = (snd <$> ConicalIntersection.calc_new_objective sigma alpha r1 r2,
       (ConicalIntersection.mkFields o1 e2'' sigma alpha, w4')).
Proof.
  intros calc1 d1 d2 o1 He Hmiss Hd1 Hd1a Hnew1 Hd2 Hfail Hd1' Hd2' Hok.
  assert (calc1 coords d1 (mkEngine (Some sc1) (f1, mkCalls n m), w1)
          = (inr r1, (o1, w1'))) as Hrun1.
  { unfold calc1. rewrite calc_miss by done. rewrite Hd1a.
    cbn [calc_new counting counted]. by rewrite Hnew1. }
  assert (calc1 coords d1 (o1, w3) = (inr r1, (o1, w3))) as Hrun1'.
  { unfold calc1, o1.
    rewrite (calc_hit _ _ _ _ _ _ _ (mkEntry coords r1)); [done|].
    apply lookup_insert_eq. }
  split.
  - unfold ConicalIntersection.calc_new.
    unfold mbind at 1, M_bind at 1. rewrite spcalc_run. fold d1. rewrite Hd1.
    unfold ConicalIntersection.engines_1_calc at 1, zoom at 1.
    cbn [ConicalIntersection.engine1 ConicalIntersection.engine2
         ConicalIntersection.sigma ConicalIntersection.alpha].
    rewrite Hrun1.
    unfold mbind at 1, M_bind at 1. rewrite spcalc_run. fold d2. rewrite Hd2.
    unfold ConicalIntersection.engines_2_calc, zoom.
    cbn [ConicalIntersection.engine1 ConicalIntersection.engine2
         ConicalIntersection.sigma ConicalIntersection.alpha].
    by rewrite Hfail, He.
  - by apply (calc_new_of_results calc1 calc2 coords dirname o1 e2' sigma alpha
                w2' w3 r1 o1 w3 w4 r2 e2'' w4').
Qed.

End CompositeRetry.

(** ** [QChem]: the local run *)

Section QChemLocal.
Context `{Platform W} `{Facility W} `{Shell W}.
Variable bohr2ang : Qc.
Variable edit_qcrems : string → option string → gmap string string → gmap string string.
Variable qchem_read_result : string → QChem.Fields * W → exn + Result.

(** One local run, step by step. *)
Lemma qchem_calc_new_run coords dirname (f : QChem.Fields) (w : W) :
  QChem_local.calc_new bohr2ang edit_qcrems qchem_read_result coords dirname (f, w)
  = match makedirs_if_missing dirname w with
    | inl e => (inl e, (f, w))
    | inr w0 =>
        match reshape_rows3 coords with
        | inl e => (inl e, (f, w0))
        | inr xyz =>
            let has_run_d := os_path_exists (os_path_join dirname "run.d") w0 in
            let rems1 := edit_qcrems "jobtype" (Some "force") (QChem.M_qcrems f) in
            let rems2 := if QChem.qcdir f && negb has_run_d
                         then edit_qcrems "scf_guess" None rems1 else rems1 in
            let f1 := QChem.mkFields (QChem.threads f) (QChem.qcdir f && has_run_d)
                        (Qcmult bohr2ang <$> xyz) rems2 in
            match molecule_write (os_path_join dirname "run.in") w0 with
            | inl e => (inl e, (f1, w0))
            | inr w1 =>
                match subprocess_check_call (QChem_local.qchem_command f) dirname w1 with
                | inl e =>
                    (inl (if isinstance_run_error e
                          then Engine_exn QChemEngineError "" else e), (f1, w1))
                | inr w2 =>
                    let f2 := QChem.mkFields (QChem.threads f) true
                                (Qcmult bohr2ang <$> xyz)
                                (if QChem.qcdir f && has_run_d then rems2
                                 else edit_qcrems "scf_guess" (Some "read") rems2) in
                    match qchem_read_result dirname (f2, w2) with
                    | inl e =>
                        (inl (if isinstance_run_error e
                              then Engine_exn QChemEngineError "" else e), (f2, w2))
                    | inr r => (inr r, (f2, w2))
                    end
                end
            end
        end
    end.
Proof.
  unfold QChem_local.calc_new, QChem_local.on_fields, QChem_local.qchem_command,
    QChem_local.set_xyzs, QChem_local.set_qcdir, QChem_local.set_qcrem,
    run_os, lift_exn, gets, modify, raise, try_except,
    mbind, M_bind, mret, M_ret.
  destruct (makedirs_if_missing dirname w) as [e|w0]; [done|].
  destruct (reshape_rows3 coords) as [e|xyz]; [done|]. cbn beta iota zeta.
  destruct f as [th qd xyzs rems].
  cbn [QChem.qcdir QChem.threads QChem.M_xyzs QChem.M_qcrems QChem.nt].
  destruct qd, (os_path_exists (os_path_join dirname "run.d") w0);
    cbn [andb negb]; cbn beta iota;
    (destruct (molecule_write _ w0) as [e|w1]; [done|]); cbn beta iota;
    cbn [QChem.qcdir QChem.threads QChem.M_xyzs QChem.M_qcrems QChem.nt];
    (destruct (subprocess_check_call _ dirname w1) as [e|w2]; cbn beta iota;
       [by destruct (isinstance_run_error e)|]);
    (destruct (qchem_read_result dirname _) as [e|r]; cbn beta iota;
       [by destruct (isinstance_run_error e)|done]).
Qed.


(** X18.  A failure of the program or of reading its output is reported as
    [QChemEngineError] when it is an [OSError], a [RuntimeError] or a
    [CalledProcessError].  When the program itself failed, [self.qcdir] is not
    switched on; when the program ran and only the reading failed, it is. *)
Theorem run_failures_become_QChemEngineError coords dirname f w w0 w1 e :
  isinstance_run_error e = true →
  makedirs_if_missing dirname w = inr w0 →
  (length coords `mod` 3 = 0)%nat →
  molecule_write (os_path_join dirname "run.in") w0 = inr w1 →
  let run := QChem_local.calc_new bohr2ang edit_qcrems qchem_read_result
               coords dirname (f, w) in
  (subprocess_check_call (QChem_local.qchem_command f) dirname w1 = inl e →
   run.1 = inl (Engine_exn QChemEngineError "")
   ∧ run.2.2 = w1
   ∧ QChem.qcdir run.2.1
     = QChem.qcdir f && os_path_exists (os_path_join dirname "run.d") w0)
  ∧ (∀ w2,
       subprocess_check_call (QChem_local.qchem_command f) dirname w1 = inr w2 →
       (∀ f2, qchem_read_result dirname (f2, w2) = inl e) →
       run.1 = inl (Engine_exn QChemEngineError "")
       ∧ run.2.2 = w2
       ∧ QChem.qcdir run.2.1 = true).
Proof.
  intros He Hdir Hlen Hwrite run. unfold run. rewrite qchem_calc_new_run, Hdir.
  unfold reshape_rows3. rewrite bool_decide_eq_true_2 by done. cbn zeta.
  rewrite Hwrite. split.
  - intros ->. by rewrite He.
  - intros w2 -> Hread. by rewrite Hread, He.
Qed.

(** X19.  Other failures keep their class.  An [OSError] of [os.makedirs] or of
    writing [run.in] is raised before the [try] and reaches the caller as it
    is; an array that cannot be reshaped gives numpy's [ValueError] after the
    directory was made; and an exception of [read_result] that the [except]
    clause does not name (a [ValueError] of [float], say) passes through. *)
Theorem other_failures_keep_their_class coords dirname f w :
  let run := QChem_local.calc_new bohr2ang edit_qcrems qchem_read_result
               coords dirname (f, w) in
  (∀ e, makedirs_if_missing dirname w = inl e → run = (inl e, (f, w)))
  ∧ (∀ w0, makedirs_if_missing dirname w = inr w0 →
       (length coords `mod` 3 ≠ 0)%nat →
       run = (inl (ValueError "cannot reshape array into shape (3)"), (f, w0)))
  ∧ (∀ w0 e, makedirs_if_missing dirname w = inr w0 →
       (length coords `mod` 3 = 0)%nat →
       molecule_write (os_path_join dirname "run.in") w0 = inl e →
       run.1 = inl e ∧ run.2.2 = w0)
  ∧ (∀ w0 w1 w2 e, makedirs_if_missing dirname w = inr w0 →
       (length coords `mod` 3 = 0)%nat →
       molecule_write (os_path_join dirname "run.in") w0 = inr w1 →
       subprocess_check_call (QChem_local.qchem_command f) dirname w1 = inr w2 →
       isinstance_run_error e = false →
       (∀ f2, qchem_read_result dirname (f2, w2) = inl e) →
       run.1 = inl e ∧ run.2.2 = w2).
Proof.
  cbn zeta. rewrite qchem_calc_new_run. unfold reshape_rows3.
  split; [|split; [|split]].
  - by intros e ->.
  - intros w0 -> Hlen. by rewrite bool_decide_eq_false_2.
  - intros w0 e -> Hlen Hwrite. rewrite bool_decide_eq_true_2 by done.
    cbn zeta. by rewrite Hwrite.
  - intros w0 w1 w2 e -> Hlen Hwrite Hcall He Hread.
    rewrite bool_decide_eq_true_2 by done.
    cbn zeta. by rewrite Hwrite, Hcall, Hread, He.
Qed.

End QChemLocal.

(** ** [set_tcenv] *)

Section TeraChemEnvironment.

Lemma string_length_app (s1 s2 : string) :
  String.length (s1 +:+ s2) = (String.length s1 + String.length s2)%nat.
Proof. induction s1 as [|c s1 IH]; [done|]. simpl. by rewrite IH. Qed.

Lemma set_tcenv_run (env : Environ) :
  set_tcenv env
  = match env !! "TeraChem" with
    | None => (inl (RuntimeError "Please set TeraChem environment variable"), env)
    | Some home =>
        match env !! "PATH" with
        | None => (inl (OtherException "KeyError" "PATH"), env)
        | Some path =>
            let env1 := <["PATH" := os_path_join home "bin" +:+ ":" +:+ path]> env in
            match env !! "LD_LIBRARY_PATH" with
            | None => (inl (OtherException "KeyError" "LD_LIBRARY_PATH"), env1)
            | Some ld =>
                (inr tt,
                 <["LD_LIBRARY_PATH" := os_path_join home "lib" +:+ ":" +:+ ld]> env1)
            end
        end
    end.
Proof.
  unfold set_tcenv, environ_getitem, gets, modify, raise, mbind, M_bind.
  destruct (env !! "TeraChem") as [home|] eqn:Hhome.
  - rewrite bool_decide_eq_true_2 by done. cbn [negb]. rewrite Hhome.
    cbn beta iota.
    destruct (env !! "PATH") as [path|] eqn:Hpath; [|done].
    cbn beta iota. rewrite lookup_insert_ne by done.
    by destruct (env !! "LD_LIBRARY_PATH").
  - rewrite bool_decide_eq_false_2 by (by intros [? ?]). done.
Qed.

(** X20.  [set_tcenv] can fail half way.  It raises exactly when one of the three
    variables is not set.  A missing [TeraChem] or [PATH] leaves the
    environment as it was; a missing [LD_LIBRARY_PATH] is found only after
    [PATH] has been given its new value, and the [KeyError] leaves that
    change in place. *)
Theorem set_tcenv_fails_half_way (env : Environ) :
  ((∃ e env', set_tcenv env = (inl e, env'))
   ↔ env !! "TeraChem" = None ∨ env !! "PATH" = None
     ∨ env !! "LD_LIBRARY_PATH" = None)
  ∧ (env !! "TeraChem" = None ∨ env !! "PATH" = None → (set_tcenv env).2 = env)
  ∧ (∀ home path,
       env !! "TeraChem" = Some home → env !! "PATH" = Some path →
       env !! "LD_LIBRARY_PATH" = None →
       set_tcenv env
       = (inl (OtherException "KeyError" "LD_LIBRARY_PATH"),
          <["PATH" := os_path_join home "bin" +:+ ":" +:+ path]> env)
       ∧ (set_tcenv env).2 ≠ env).
Proof.
  rewrite set_tcenv_run. split; [|split].
  - destruct (env !! "TeraChem"), (env !! "PATH"), (env !! "LD_LIBRARY_PATH");
      cbn zeta; split; try (intros (? & ? & ?); done); try (intros [|[|]]; done);
      try (intros _; by do 2 eexists); auto.
  - intros [->| ->]; [done|]. by destruct (env !! "TeraChem").
  - intros home path -> Hpath ->. rewrite Hpath. cbn zeta. split; [done|].
    cbn [snd]. intros Heq. apply (f_equal (λ m : Environ, m !! "PATH")) in Heq.
    rewrite lookup_insert_eq, Hpath in Heq. injection Heq as Heq.
    apply (f_equal String.length) in Heq.
    rewrite !string_length_app in Heq. cbn in Heq. lia.
Qed.

(** X21.  [set_tcenv] is not idempotent.  With the three variables set, each call
    puts the two directories of TeraChem in front once more: after two calls
    [PATH] begins with [bin] twice, and every other variable is as it was. *)
Theorem set_tcenv_twice_prepends_twice (env : Environ) home path ld :
  env !! "TeraChem" = Some home →
  env !! "PATH" = Some path →
  env !! "LD_LIBRARY_PATH" = Some ld →
  ∃ env1 env2,
    set_tcenv env = (inr tt, env1)
    ∧ set_tcenv env1 = (inr tt, env2)
    ∧ env1 !! "PATH" = Some (os_path_join home "bin" +:+ ":" +:+ path)
    ∧ env2 !! "PATH"
      = Some (os_path_join home "bin" +:+ ":" +:+ os_path_join home "bin" +:+ ":" +:+ path)
    ∧ env2 !! "LD_LIBRARY_PATH"
      = Some (os_path_join home "lib" +:+ ":" +:+ os_path_join home "lib" +:+ ":" +:+ ld)
    ∧ env2 ≠ env1
    ∧ ∀ key, key ≠ "PATH" → key ≠ "LD_LIBRARY_PATH" → env2 !! key = env !! key.
Proof.
  intros Hhome Hpath Hld.
  set (p1 := os_path_join home "bin" +:+ ":" +:+ path).
  set (l1 := os_path_join home "lib" +:+ ":" +:+ ld).
  set (env1 := <["LD_LIBRARY_PATH" := l1]> (<["PATH" := p1]> env)).
  assert (env1 !! "TeraChem" = Some home) as Hhome1
    by (unfold env1; by rewrite !lookup_insert_ne by done).
  assert (env1 !! "PATH" = Some p1) as Hpath1
    by (unfold env1; by rewrite lookup_insert_ne, lookup_insert_eq by done).
  assert (env1 !! "LD_LIBRARY_PATH" = Some l1) as Hld1
    by (unfold env1; by rewrite lookup_insert_eq).
  exists env1. eexists. split; [|split].
  - by rewrite set_tcenv_run, Hhome, Hpath, Hld.
  - rewrite set_tcenv_run, Hhome1, Hpath1, Hld1. reflexivity.
  - split; [done|].
    split; [by rewrite lookup_insert_ne, lookup_insert_eq by done|].
    split; [by rewrite lookup_insert_eq|].
    split.
    + intros Heq. apply (f_equal (λ m : Environ, m !! "LD_LIBRARY_PATH")) in Heq.
      rewrite lookup_insert_eq, Hld1 in Heq. injection Heq as Heq.
      apply (f_equal String.length) in Heq. unfold l1 in Heq.
      rewrite !string_length_app in Heq. cbn in Heq. lia.
    + intros key H1 H2. unfold env1. by rewrite !lookup_insert_ne by done.
Qed.

End TeraChemEnvironment.

(** ** [TeraChem] and the failure path of [QCEngineAPI] *)

Section NoReadResult.
Context `{Hash} `{Platform W} {F : Type}.
Implicit Types (cls : EngineClass F W).

(** Without [read_result] the flag [readfiles] has no effect. *)
Lemma calc_without_read_result cls coords dirname readfiles (σ : Engine F * W) :
  read_result cls = None →
  Engine.calc cls coords dirname readfiles σ = Engine.calc cls coords dirname false σ.
Proof.
  intros Hnone. destruct σ as [[[sc|] f] w]; [|done].
  unfold_methods. simpl. destruct (sc !! hash_tostring coords); [done|]. simpl.
  destruct (readfiles && os_path_exists dirname w); [|done]. simpl.
  by rewrite Hnone.
Qed.

Lemma calc_wq_without_read_result cls coords dirname readfiles (σ : Engine F * W) :
  read_result cls = None →
  Engine.calc_wq cls coords dirname readfiles σ = Engine.calc_wq cls coords dirname false σ.
Proof.
  intros Hnone. destruct σ as [[[sc|] f] w]; [|done].
  unfold_methods. simpl. destruct (sc !! hash_tostring coords); [done|]. simpl.
  destruct (readfiles && os_path_exists dirname w); [|done]. simpl.
  by rewrite Hnone.
Qed.

End NoReadResult.

Section TeraChemLaws.
Context `{Hash} `{Platform W} `{Shell W} {F : Type}.
Variable manage_guess : string → M (F * W) (list string).
Variable prepare_input : Coords → string → M (F * W) unit.
Variable prepare_input_wq : Coords → string → list string → M (F * W) unit.
Variable scr : F → string.

Lemma terachem_calc_new_raises coords dirname (s : F * W) :
  ∃ e s', TeraChem.calc_new manage_guess prepare_input coords dirname s = (inl e, s').
Proof.
  unfold TeraChem.calc_new, run_os, raise, mbind, M_bind.
  destruct (manage_guess dirname s) as [[e|g] s1]; [by do 2 eexists|].
  destruct (prepare_input coords dirname s1) as [[e|[]] [f2 w2]]; [by do 2 eexists|].
  destruct (subprocess_check_call _ dirname w2) as [e|w3]; by do 2 eexists.
Qed.

Lemma terachem_calc_wq_new_raises coords dirname (s : F * W) :
  ∃ e s', TeraChem.calc_wq_new manage_guess prepare_input_wq scr coords dirname s
          = (inl e, s').
Proof.
  unfold TeraChem.calc_wq_new, run_os, raise, gets, mbind, M_bind.
  destruct s as [f w].
  destruct (makedirs_if_missing dirname w) as [e|w1]; [by do 2 eexists|].
  destruct (makedirs_if_missing _ w1) as [e|w2]; [by do 2 eexists|].
  destruct (manage_guess dirname (f, w2)) as [[e|g] s1]; [by do 2 eexists|].
  destruct (prepare_input_wq coords dirname g s1) as [[e|[]] s2]; by do 2 eexists.
Qed.

(** X22.  A [TeraChem] engine never produces a result.  [calc_new] ends by calling
    a [read_result] that the class does not have, [calc_wq_new] by reading a
    name that is not bound, and without [read_result] nothing is read from
    disk.  So [calc], [calc_wq] and [read_wq] return only for a geometry that
    is in the cache already, and none of them ever adds an entry;
    [number_output] raises in every world and changes nothing. *)
Theorem terachem_returns_only_what_is_cached coords dirname readfiles sc (f : F) (w : W) :
  let cls := TeraChem.cls manage_guess prepare_input prepare_input_wq scr in
  let σ := (mkEngine (Some sc) f, w) in
  ((∃ r σ', Engine.calc cls coords dirname readfiles σ = (inr r, σ'))
     ↔ is_Some (sc !! hash_tostring coords))
  ∧ ((∃ σ', Engine.calc_wq cls coords dirname readfiles σ = (inr tt, σ'))
     ↔ is_Some (sc !! hash_tostring coords))
  ∧ ((∃ r σ', Engine.read_wq cls coords dirname σ = (inr r, σ'))
     ↔ is_Some (sc !! hash_tostring coords))
  ∧ stored_calcs (Engine.calc cls coords dirname readfiles σ).2.1 = Some sc
  ∧ stored_calcs (Engine.calc_wq cls coords dirname readfiles σ).2.1 = Some sc
  ∧ stored_calcs (Engine.read_wq cls coords dirname σ).2.1 = Some sc
  ∧ ∀ calcNum, ∃ e, TeraChem.number_output dirname calcNum (f, w) = (inl e, (f, w)).
Proof.
  cbn zeta.
  set (cls := TeraChem.cls manage_guess prepare_input prepare_input_wq scr).
  assert (sc !! hash_tostring coords = None →
          ∃ e σ', Engine.calc cls coords dirname readfiles (mkEngine (Some sc) f, w)
                  = (inl e, σ') ∧ stored_calcs σ'.1 = Some sc) as Hcalc.
  { intros Hmiss. rewrite calc_without_read_result by done.
    rewrite calc_miss by done.
    destruct (makedirs_if_missing dirname w) as [e|w0]; [by do 2 eexists|].
    cbn [calc_new cls TeraChem.cls].
    destruct (terachem_calc_new_raises coords dirname (f, w0)) as (e & [f' w'] & ->).
    by do 2 eexists. }
  assert (sc !! hash_tostring coords = None →
          ∃ e σ', Engine.calc_wq cls coords dirname readfiles (mkEngine (Some sc) f, w)
                  = (inl e, σ') ∧ stored_calcs σ'.1 = Some sc) as Hwq.
  { intros Hmiss. rewrite calc_wq_without_read_result by done.
    rewrite calc_wq_miss by done.
    cbn [calc_wq_new cls TeraChem.cls].
    destruct (terachem_calc_wq_new_raises coords dirname (f, w)) as (e & [f' w'] & ->).
    by do 2 eexists. }
  assert (sc !! hash_tostring coords = None →
          ∃ e, Engine.read_wq cls coords dirname (mkEngine (Some sc) f, w)
               = (inl e, (mkEngine (Some sc) f, w))) as Hread.
  { intros Hmiss. unfold_methods. simpl. rewrite Hmiss. simpl.
    destruct (os_path_exists dirname w); by eexists. }
  assert (∀ entry, sc !! hash_tostring coords = Some entry →
          Engine.calc_wq cls coords dirname readfiles (mkEngine (Some sc) f, w)
          = (inr tt, (mkEngine (Some sc) f, w))
          ∧ Engine.read_wq cls coords dirname (mkEngine (Some sc) f, w)
            = (inr (entry_result entry), (mkEngine (Some sc) f, w))) as Hhit.
  { intros entry Hentry. unfold_methods. simpl. by rewrite Hentry. }
  destruct (sc !! hash_tostring coords) as [entry|] eqn:Hsc.
  - destruct (Hhit entry eq_refl) as [Hq Hr].
    rewrite (calc_hit _ _ _ _ _ _ _ entry) by done. rewrite Hq, Hr.
    repeat split; try done; try (intros _; by repeat eexists).
    intros calcNum. unfold TeraChem.number_output, gets, raise, mbind, M_bind.
    destruct (os_path_exists _ w); by eexists.
  - destruct (Hcalc eq_refl) as (e1 & σ1 & -> & Hs1).
    destruct (Hwq eq_refl) as (e2 & σ2 & -> & Hs2).
    destruct (Hread eq_refl) as (e3 & ->).
    repeat split; try done;
      try (intros (? & ? & ?); done); try (intros (? & ?); done);
      try (intros [? ?]; done).
    intros calcNum. unfold TeraChem.number_output, gets, raise, mbind, M_bind.
    destruct (os_path_exists _ w); by eexists.
Qed.

End TeraChemLaws.

Section QCEngineFailure.
Context {W : Type}.
Variable qcengine_compute : QCEngineAPI.Schema → string → W → QCEngineAPI.Ret * W.

(** X23.  A computation that failed is recorded before it is reported.  When
    [qcengine.compute] returns without success, [calc] raises
    [QCEngineAPIEngineError] with the message of the return value; that
    return value is by then the last entry of [schema_traj], and the schema
    of the engine itself, with the geometry it was built with, is as
    before. *)
Theorem failed_computation_is_recorded coords dirname (o : Engine QCEngineAPI.Fields) (w : W) :
  let new_schema :=
    QCEngineAPI.mkSchema (QCEngineAPI.driver (QCEngineAPI.schema (fields o))) coords None in
  let ret := (qcengine_compute new_schema (QCEngineAPI.program (fields o)) w).1 in
  let run := QCEngineAPI.calc qcengine_compute coords dirname (o, w) in
  QCEngineAPI.success ret = false →
  run.1 = inl (Engine_exn QCEngineAPIEngineError
                 ("QCEngineAPI computation did not execute correctly. Message: "
                  +:+ QCEngineAPI.error_message ret))
  ∧ last (QCEngineAPI.schema_traj (fields run.2.1)) = Some ret
  ∧ QCEngineAPI.schema (fields run.2.1) = QCEngineAPI.schema (fields o).
Proof.
  destruct o as [sc f]. cbn zeta. cbn [fields]. intros Hfail.
  unfold QCEngineAPI.calc, call, zoom. cbn [fields].
  rewrite qcengine_calc_new_run.
  cbn [fst snd fields QCEngineAPI.schema QCEngineAPI.schema_traj]. rewrite Hfail.
  by rewrite last_snoc.
Qed.

End QCEngineFailure.

(** ** [Zmachine] *)

Section ZmachineLaws.
Local Open Scope Qc_scope.
















End ZmachineLaws.

Section ZmachineRun.
Context `{Platform W}.
Variable bohr2ang : Qc.
Variable psi4_setup : string → M (Zmachine.Fields * W) unit.
Variable psi4_energy : Coords → M (Zmachine.Fields * W) Qc.
Variable E : Coords → Qc.
Hypothesis Hsetup : ∀ dirname s, psi4_setup dirname s = (inr tt, s).
Hypothesis Horacle : ∀ g s, psi4_energy g s = (inr (E g), s).
Local Open Scope Qc_scope.







End ZmachineRun.

(** ** Runs of the further properties *)

Section MoreRuns.
#[local] Existing Instance example_hash.
Local Open Scope Qc_scope.

Lemma colliding_fingerprints_share_entry_witness :
  ∃ σ1,
    Engine.calc (counting Blank.cls) Cases.geometry_a "a.tmp" false
      (Examples.blank_counting, Examples.empty_world)
    = (inr (Cases.zero_result 3), σ1)
    ∧ Engine.calc (counting Blank.cls) Cases.geometry_b "b.tmp" false σ1
      = (inr (Cases.zero_result 3), σ1)
    ∧ n_calc_new (fields σ1.1).2 = 1%nat
    ∧ (entry_coords <$> (default ∅ (stored_calcs σ1.1) !! hash_tostring Cases.geometry_b))
      = Some Cases.geometry_a.
Proof.
  apply (colliding_fingerprints_share_entry Blank.cls Cases.geometry_a Cases.geometry_b
           "a.tmp" "b.tmp" false ∅ tt 0 0 Examples.empty_world
           (mkWorld {["a.tmp"]} []) (Cases.zero_result 3) tt (mkWorld {["a.tmp"]} [])).
  - reflexivity.
  - reflexivity.
  - vm_compute. reflexivity.
  - reflexivity.
Defined.

Lemma failed_calc_is_retried_witness :
  Engine.calc (counting Examples.qchem_cls) Examples.geometry "opt.tmp" false
    (mkEngine (Some ∅) (fields Examples.qchem, mkCalls 0 0), Examples.empty_world)
  = (inl (Engine_exn QChemEngineError ""),
     (mkEngine (Some ∅) (fields Examples.qchem, mkCalls 1 0), Examples.tmp_world))
  ∧ Engine.calc (counting Examples.qchem_cls) Examples.geometry "opt.tmp" false
      (mkEngine (Some ∅) (fields Examples.qchem, mkCalls 1 0), Examples.tmp_world)
    = (inl (Engine_exn QChemEngineError ""),
       (mkEngine (Some ∅) (fields Examples.qchem, mkCalls 2 0), Examples.tmp_world)).
Proof.
  apply (failed_calc_is_retried Examples.qchem_cls Examples.geometry "opt.tmp" ∅
           (fields Examples.qchem) 0 0 Examples.empty_world Examples.tmp_world
           (Engine_exn QChemEngineError "") (fields Examples.qchem) Examples.tmp_world
           Examples.tmp_world (Engine_exn QChemEngineError "")
           (fields Examples.qchem) Examples.tmp_world).
  - reflexivity.
  - vm_compute. reflexivity.
  - reflexivity.
  - vm_compute. reflexivity.
  - reflexivity.
Defined.

Lemma calc_reads_instead_of_computing_witness :
  Engine.calc (counting Examples.reader_cls) Examples.geometry "opt.tmp" true
    (Examples.blank_counting, Cases.world_with_output)
  = (inr Examples.blank_result,
     (mkEngine
        (Some (<[hash_tostring Examples.geometry
                 := mkEntry Examples.geometry Examples.blank_result]> ∅))
        (tt, mkCalls 0 0),
      Cases.world_with_output)).
Proof.
  apply (calc_reads_instead_of_computing Examples.reader_cls
           (λ dirname '(_, w),
              if bool_decide (dirname +:+ "/output.dat" ∈ paths w)
              then inr Examples.blank_result
              else inl (OSError ("No such file or directory: " +:+ dirname +:+ "/output.dat")))
           Examples.geometry "opt.tmp" ∅ tt 0 0 Cases.world_with_output Examples.blank_result).
  - reflexivity.
  - vm_compute. reflexivity.
  - reflexivity.
  - vm_compute. reflexivity.
Defined.

Lemma calc_wq_skips_witness :
  Engine.calc_wq (counting Examples.reader_cls) Examples.geometry "opt.tmp" true
    (Examples.blank_counting, Cases.world_with_output)
  = (inr tt, (Examples.blank_counting, Cases.world_with_output)).
Proof.
  apply (calc_wq_skips Examples.reader_cls Examples.geometry "opt.tmp" true ∅ tt 0 0
           Cases.world_with_output).
  right. exists Examples.blank_result. vm_compute. reflexivity.
Defined.

Lemma submit_collect_round_trip_witness :
  let o1 := mkEngine (Some ∅) (Examples.qchem_submitted, mkCalls 0 1) in
  let o2 := mkEngine (Some (<[hash_tostring Examples.geometry
                              := mkEntry Examples.geometry Examples.blank_result]> ∅))
                     (Examples.qchem_submitted, mkCalls 0 1) in
  Engine.calc_wq (counting Cases.qchem_reader_cls) Examples.geometry "opt.tmp" false
    (mkEngine (Some ∅) (fields Examples.qchem, mkCalls 0 0), Examples.empty_world)
  = (inr tt, (o1, Examples.world_submitted 1))
  ∧ Engine.read_wq (counting Cases.qchem_reader_cls) Examples.geometry "opt.tmp"
      (o1, Cases.world_collected)
    = (inr Examples.blank_result, (o2, Cases.world_collected))
  ∧ ∀ dirname' readfiles w3,
      Engine.calc (counting Cases.qchem_reader_cls) Examples.geometry dirname' readfiles (o2, w3)
      = (inr Examples.blank_result, (o2, w3))
      ∧ Engine.read_wq (counting Cases.qchem_reader_cls) Examples.geometry dirname' (o2, w3)
        = (inr Examples.blank_result, (o2, w3)).
Proof.
  apply (submit_collect_round_trip Cases.qchem_reader_cls Cases.read_run_out Examples.geometry
           "opt.tmp" ∅ (fields Examples.qchem) 0 0 Examples.empty_world
           Examples.qchem_submitted (Examples.world_submitted 1) Cases.world_collected
           Examples.blank_result).
  - reflexivity.
  - vm_compute. reflexivity.
  - vm_compute. reflexivity.
  - reflexivity.
  - vm_compute. reflexivity.
Defined.

Lemma clearCalcs_forces_recomputation_witness :
  ((_ ← Engine.calc (counting Blank.cls) Examples.geometry "opt.tmp" false;
    _ ← Engine.clearCalcs;
    Engine.calc (counting Blank.cls) Examples.geometry "opt.tmp" false)
     : M (Engine (unit * Calls) * SimWorld) Result)
    (Examples.blank_counting, Examples.empty_world)
  = (inr Examples.blank_result,
     (mkEngine (Some {[hash_tostring Examples.geometry
                       := mkEntry Examples.geometry Examples.blank_result]})
        (tt, mkCalls 2 0), Examples.tmp_world)).
Proof.
  apply (clearCalcs_forces_recomputation Blank.cls Examples.geometry "opt.tmp" ∅ tt 0 0
           Examples.empty_world Examples.tmp_world Examples.blank_result tt
           Examples.tmp_world Examples.tmp_world Examples.blank_result tt
           Examples.tmp_world).
  - reflexivity.
  - vm_compute. reflexivity.
  - reflexivity.
  - vm_compute. reflexivity.
  - reflexivity.
Defined.

Lemma read_wq_needs_read_result_witness :
  (∃ r σ', Engine.read_wq Blank.cls Examples.geometry "opt.tmp"
             (Examples.blank_cached, Examples.tmp_world) = (inr r, σ'))
  ↔ is_Some (({[hash_tostring Examples.geometry
                := mkEntry Examples.geometry Examples.blank_result]} : gmap Z CacheEntry)
             !! hash_tostring Examples.geometry).
Proof.
  apply (read_wq_needs_read_result Blank.cls Examples.geometry "opt.tmp"
           {[hash_tostring Examples.geometry
             := mkEntry Examples.geometry Examples.blank_result]} tt Examples.tmp_world).
  reflexivity.
Defined.


Lemma objective_bounds_witness :
  ∃ l r,
    ConicalIntersection.calc_new_objective (Q2Qc 3.5) (Q2Qc 0.02)
      Examples.result_1 Examples.result_2 = inr (l, r)
    ∧ ConicalIntersection.EDif l = energy_gap Examples.result_1 Examples.result_2
    ∧ 0 ≤ ConicalIntersection.EDif l
    ∧ 0 ≤ ConicalIntersection.Penalty l
    ∧ ConicalIntersection.Penalty l ≤ ConicalIntersection.EDif l
    ∧ 2 * ConicalIntersection.EAvg l
      = energy Examples.result_1 + energy Examples.result_2
    ∧ (0 ≤ Q2Qc 3.5 →
       ConicalIntersection.EAvg l ≤ energy r
       ∧ energy r ≤ ConicalIntersection.EAvg l + Q2Qc 3.5 * ConicalIntersection.EDif l)
    ∧ length (gradient r) = length (gradient Examples.result_1).
Proof.
  apply (objective_bounds (Q2Qc 3.5) (Q2Qc 0.02) Examples.result_1 Examples.result_2).
  - vm_compute. reflexivity.
  - reflexivity.
Defined.

Lemma objective_at_a_tie_witness :
  ConicalIntersection.calc_new_objective (Q2Qc 3.5) (Q2Qc 0.02)
    Examples.result_1 Cases.result_tie
  = inr (ConicalIntersection.mkLocals 1 2 (energy Examples.result_1) 0 0
           (energy Examples.result_1),
         mkResult (energy Examples.result_1)
           (zip_with (λ a b, Q2Qc (1 # 2) * (a + b))
              (gradient Examples.result_1) (gradient Cases.result_tie))
           None).
Proof.
  apply (objective_at_a_tie (Q2Qc 3.5) (Q2Qc 0.02) Examples.result_1 Cases.result_tie).
  - reflexivity.
  - vm_compute. discriminate.
  - reflexivity.
Defined.

Lemma penalty_grows_with_gap_witness :
  ∃ l r l' r',
    ConicalIntersection.calc_new_objective (Q2Qc 3.5) (Q2Qc 0.02)
      Examples.result_1 Cases.result_tie = inr (l, r)
    ∧ ConicalIntersection.calc_new_objective (Q2Qc 3.5) (Q2Qc 0.02)
        Examples.result_1 Examples.result_2 = inr (l', r')
    ∧ ConicalIntersection.Penalty l ≤ ConicalIntersection.Penalty l'
    ∧ (0 ≤ Q2Qc 3.5 →
       energy Examples.result_1 + energy Cases.result_tie
       = energy Examples.result_1 + energy Examples.result_2 →
       energy r ≤ energy r').
Proof.
  apply (penalty_grows_with_gap (Q2Qc 3.5) (Q2Qc 0.02)
           Examples.result_1 Cases.result_tie Examples.result_1 Examples.result_2).
  - vm_compute. reflexivity.
  - reflexivity.
  - reflexivity.
  - vm_compute. discriminate.
Defined.

Lemma objective_gradient_is_slope_witness :
  ∃ l r l' r' g,
    ConicalIntersection.calc_new_objective (Q2Qc 3.5) (Q2Qc 0.02)
      (mkResult (Q2Qc 0.01 * Q2Qc 0 + Q2Qc (-1)) [Q2Qc 0.01] None)
      (mkResult (Q2Qc 0.02 * Q2Qc 0 + Q2Qc (-1.0005)) [Q2Qc 0.02] None)
    = inr (l, r)
    ∧ ConicalIntersection.calc_new_objective (Q2Qc 3.5) (Q2Qc 0.02)
        (mkResult (Q2Qc 0.01 * (Q2Qc 0 + Q2Qc 0.01) + Q2Qc (-1)) [Q2Qc 0.01] None)
        (mkResult (Q2Qc 0.02 * (Q2Qc 0 + Q2Qc 0.01) + Q2Qc (-1.0005)) [Q2Qc 0.02] None)
      = inr (l', r')
    ∧ gradient r = [g]
    ∧ energy r' - energy r
      = Q2Qc 0.01 * g
        + Q2Qc 0.01 ^ 2 * (Q2Qc 3.5 * Q2Qc 0.02 ^ 2 * (Q2Qc 0.01 - Q2Qc 0.02) ^ 2
                   / ((ConicalIntersection.EDif l + Q2Qc 0.02) ^ 2
                      * (ConicalIntersection.EDif l' + Q2Qc 0.02))).
Proof.
  apply (objective_gradient_is_slope (Q2Qc 3.5) (Q2Qc 0.02) (Q2Qc 0.01) (Q2Qc (-1))
           (Q2Qc 0.02) (Q2Qc (-1.0005)) (Q2Qc 0) (Q2Qc 0.01)).
  - vm_compute. reflexivity.
  - vm_compute. discriminate.
  - vm_compute. discriminate.
Defined.

Lemma other_exceptions_pass_through_witness :
  ConicalIntersection.calc_new Cases.base_calc Examples.blank_calc
    Examples.geometry "opt.tmp"
    (ConicalIntersection.mkFields Examples.blank Examples.blank (Q2Qc 3.5) (Q2Qc 0.02),
     Examples.empty_world)
  = (inl (NotImplementedError "Not implemented for the base class"),
     (ConicalIntersection.mkFields Examples.blank Examples.blank (Q2Qc 3.5) (Q2Qc 0.02),
      Cases.world_state_1)).
Proof.
  apply (proj1 (other_exceptions_pass_through Cases.base_calc Examples.blank_calc
                  Examples.geometry "opt.tmp" Examples.blank Examples.blank
                  (Q2Qc 3.5) (Q2Qc 0.02) Examples.empty_world
                  (NotImplementedError "Not implemented for the base class") eq_refl)
           Cases.world_state_1).
  - vm_compute. reflexivity.
  - vm_compute. reflexivity.
Defined.

Lemma retry_reuses_state_1_witness :
  let calc1 c d := Engine.calc (counting Blank.cls) c d false in
  let o1 := mkEngine (Some (<[hash_tostring Examples.geometry
                              := mkEntry Examples.geometry Examples.blank_result]> ∅))
                     (tt, mkCalls 1 0) in
  ConicalIntersection.calc_new calc1 Cases.flaky_calc Examples.geometry "opt.tmp"
    (ConicalIntersection.mkFields Examples.blank_counting true (Q2Qc 3.5) (Q2Qc 0.02),
     Examples.empty_world)
  = (inl (Engine_exn ConicalIntersectionEngineError ""),
     (ConicalIntersection.mkFields o1 false (Q2Qc 3.5) (Q2Qc 0.02), Cases.world_states))
  ∧ ConicalIntersection.calc_new calc1 Cases.flaky_calc Examples.geometry "opt.tmp"
      (ConicalIntersection.mkFields o1 false (Q2Qc 3.5) (Q2Qc 0.02), Cases.world_states)
    = (snd <$> ConicalIntersection.calc_new_objective (Q2Qc 3.5) (Q2Qc 0.02)
                 Examples.blank_result Examples.blank_result,
       (ConicalIntersection.mkFields o1 false (Q2Qc 3.5) (Q2Qc 0.02), Cases.world_states)).
Proof.
  apply (retry_reuses_state_1 Blank.cls Cases.flaky_calc Examples.geometry "opt.tmp"
           ∅ tt 0 0 true (Q2Qc 3.5) (Q2Qc 0.02) Examples.empty_world
           Cases.world_state_1 Cases.world_state_1 Examples.blank_result tt Cases.world_state_1
           Cases.world_states (Engine_exn QChemEngineError "") false Cases.world_states
           Cases.world_states Cases.world_states Examples.blank_result false Cases.world_states).
  - reflexivity.
  - reflexivity.
  - vm_compute. reflexivity.
  - vm_compute. reflexivity.
  - reflexivity.
  - vm_compute. reflexivity.
  - reflexivity.
  - vm_compute. reflexivity.
  - vm_compute. reflexivity.
  - reflexivity.
Defined.



Lemma run_failures_become_QChemEngineError_witness :
  let run := QChem_local.calc_new (H1 := Cases.shell_fails) (Q2Qc 0.529177210)
               Cases.edit_qcrems Cases.read_run_out Examples.geometry "opt.tmp"
               (fields Examples.qchem, Examples.empty_world) in
  run.1 = inl (Engine_exn QChemEngineError "")
  ∧ run.2.2 = Cases.world_written
  ∧ QChem.qcdir run.2.1
    = QChem.qcdir (fields Examples.qchem)
      && os_path_exists (os_path_join "opt.tmp" "run.d") Examples.tmp_world.
Proof.
  refine (proj1 (run_failures_become_QChemEngineError (H1 := Cases.shell_fails)
                   (Q2Qc 0.529177210) Cases.edit_qcrems Cases.read_run_out Examples.geometry
                   "opt.tmp" (fields Examples.qchem) Examples.empty_world
                   Examples.tmp_world Cases.world_written
                   (OtherException "CalledProcessError" "exit status 127")
                   _ _ _ _) _).
  - reflexivity.
  - vm_compute. reflexivity.
  - reflexivity.
  - vm_compute. reflexivity.
  - reflexivity.
Defined.

Lemma other_failures_keep_their_class_witness :
  let run := QChem_local.calc_new (H1 := Cases.shell_runs) (Q2Qc 0.529177210)
               Cases.edit_qcrems Cases.garbled Examples.geometry "opt.tmp"
               (fields Examples.qchem, Examples.empty_world) in
  run.1 = inl (ValueError "could not convert string to float")
  ∧ run.2.2 = Cases.world_after_run.
Proof.
  apply (proj2 (proj2 (proj2
           (other_failures_keep_their_class (H1 := Cases.shell_runs) (Q2Qc 0.529177210)
              Cases.edit_qcrems Cases.garbled Examples.geometry "opt.tmp"
              (fields Examples.qchem) Examples.empty_world)))
           Examples.tmp_world Cases.world_written Cases.world_after_run
           (ValueError "could not convert string to float")).
  - vm_compute. reflexivity.
  - reflexivity.
  - vm_compute. reflexivity.
  - vm_compute. reflexivity.
  - reflexivity.
  - intros f2. reflexivity.
Defined.

Lemma set_tcenv_fails_half_way_witness :
  set_tcenv Cases.environ_without_ld
  = (inl (OtherException "KeyError" "LD_LIBRARY_PATH"),
     <["PATH" := os_path_join "/opt/terachem" "bin" +:+ ":" +:+ "/usr/bin"]>
       Cases.environ_without_ld)
  ∧ (set_tcenv Cases.environ_without_ld).2 ≠ Cases.environ_without_ld.
Proof.
  apply (proj2 (proj2 (set_tcenv_fails_half_way Cases.environ_without_ld))
           "/opt/terachem" "/usr/bin").
  - vm_compute. reflexivity.
  - vm_compute. reflexivity.
  - vm_compute. reflexivity.
Defined.

Lemma set_tcenv_twice_prepends_twice_witness :
  ∃ env1 env2,
    set_tcenv Cases.environ_complete = (inr tt, env1)
    ∧ set_tcenv env1 = (inr tt, env2)
    ∧ env1 !! "PATH" = Some (os_path_join "/opt/terachem" "bin" +:+ ":" +:+ "/usr/bin")
    ∧ env2 !! "PATH"
      = Some (os_path_join "/opt/terachem" "bin" +:+ ":"
              +:+ os_path_join "/opt/terachem" "bin" +:+ ":" +:+ "/usr/bin")
    ∧ env2 !! "LD_LIBRARY_PATH"
      = Some (os_path_join "/opt/terachem" "lib" +:+ ":"
              +:+ os_path_join "/opt/terachem" "lib" +:+ ":" +:+ "/usr/lib")
    ∧ env2 ≠ env1
    ∧ ∀ key, key ≠ "PATH" → key ≠ "LD_LIBRARY_PATH" →
        env2 !! key = Cases.environ_complete !! key.
Proof.
  apply (set_tcenv_twice_prepends_twice Cases.environ_complete
           "/opt/terachem" "/usr/bin" "/usr/lib").
  - vm_compute. reflexivity.
  - vm_compute. reflexivity.
  - vm_compute. reflexivity.
Defined.

Lemma terachem_returns_only_what_is_cached_witness :
  ¬ ∃ r σ', Engine.calc Cases.terachem_cls Examples.geometry "opt.tmp" true
              (Examples.blank, Examples.tmp_world) = (inr r, σ').
Proof.
  intros Hrun.
  apply (proj1 (proj1 (terachem_returns_only_what_is_cached (H1 := Cases.shell_runs)
                         (λ _, mret []) (λ _ _, mret tt) (λ _ _ _, mret tt)
                         (λ _, "scr") Examples.geometry "opt.tmp" true ∅ tt
                         Examples.tmp_world))) in Hrun.
  destruct Hrun as [entry Hentry]. vm_compute in Hentry. discriminate.
Defined.

Lemma failed_computation_is_recorded_witness :
  let run := QCEngineAPI.calc Cases.qcengine_unavailable Examples.geometry "opt.tmp"
               (Cases.qcengine_object, Examples.empty_world) in
  run.1 = inl (Engine_exn QCEngineAPIEngineError
                 ("QCEngineAPI computation did not execute correctly. Message: "
                  +:+ "program not found"))
  ∧ last (QCEngineAPI.schema_traj (fields run.2.1))
    = Some (QCEngineAPI.mkRet false "program not found" (Q2Qc 0) [])
  ∧ QCEngineAPI.schema (fields run.2.1) = QCEngineAPI.schema (fields Cases.qcengine_object).
Proof.
  apply (failed_computation_is_recorded Cases.qcengine_unavailable Examples.geometry
           "opt.tmp" Cases.qcengine_object Examples.empty_world).
  reflexivity.
Defined.




End MoreRuns.
